(** * LeNet5 on MNIST with Chainer: a shallow embedding of the notebook

    The notebook [chainer/mnist_lenet.ipynb] wires a LeNet5 model, two
    dataset iterators, an Adam optimizer and a trainer with extensions.
    The only locally written logic is the class [LeNet5]; everything else
    is configuration handed to the framework.

    The development has three layers:
    - [Tensor]: numpy-style arrays (a shape and a row-major buffer) over an
      abstract scalar type, so no theorem depends on floating-point laws;
    - [F], [L], [iterators], [training]: the framework functions the
      notebook calls, with the behaviour Chainer v1 documents for them;
    - the notebook cells themselves: [LeNet5], its [__init__] and
      [__call__], the iterators, and the trainer set-up. *)

From Stdlib Require Import String.
From Stdlib Require Import List Arith ZArith Lia Bool Permutation.
From Stdlib Require Import Reals Lra.
Import ListNotations.
Local Open Scope nat_scope.
Local Open Scope list_scope.

Set Implicit Arguments.

(** ** Scalars

    Array elements are float32 in the notebook.  The embedding keeps them
    abstract: a carrier with the operations the layers use and no laws. *)

Class Scalar (A : Type) : Type := {
  s_zero : A;
  s_add : A -> A -> A;
  s_mul : A -> A -> A;
  s_ltb : A -> A -> bool;
  s_tanh : A -> A
}.

(** ** Exceptions and results *)

Inductive exn : Type :=
| InvalidType (layer : string)
| ValueError (what : string)
| ZeroDivisionError
| IndexError
| StopIteration.

Inductive result (T : Type) : Type :=
| Ok (v : T)
| Raise (e : exn).

Arguments Ok {T} v.
Arguments Raise {T} e.

Definition rbind {T U : Type} (r : result T) (k : T -> result U) : result U :=
  match r with
  | Ok v => k v
  | Raise e => Raise e
  end.

Declare Scope result_scope.
Delimit Scope result_scope with result.
Notation "x <- c ;; k" := (rbind c (fun x => k))
  (at level 61, c at next level, right associativity) : result_scope.

(** ** Tensors *)

Fixpoint shape_eqb (s t : list nat) : bool :=
  match s, t with
  | [], [] => true
  | a :: s', b :: t' => (a =? b) && shape_eqb s' t'
  | _, _ => false
  end.

Module Tensor.
Section Tensor.
Context {A : Type} {SA : Scalar A}.

(** A numpy array: its shape and its elements in row-major order. *)
Record ndarray : Type := mk { shape : list nat; data : list A }.

Definition size (s : list nat) : nat := fold_right Nat.mul 1 s.

(** Row-major offset of element (n, c, y, x) in an array whose three
    trailing dimensions are C, H, W. *)
Definition offset4 (C H W n c y x : nat) : nat :=
  ((n * C + c) * H + y) * W + x.

Definition at4 (C H W : nat) (d : list A) (n c y x : nat) : A :=
  nth (offset4 C H W n c y x) d s_zero.

Definition at2 (W : nat) (d : list A) (n x : nat) : A :=
  nth (n * W + x) d s_zero.

(** The buffer of a fresh (B, C, H, W) array filled by [f]. *)
Definition build4 (B C H W : nat) (f : nat -> nat -> nat -> nat -> A) : list A :=
  flat_map (fun n =>
    flat_map (fun c =>
      flat_map (fun y => map (f n c y) (seq 0 W)) (seq 0 H))
      (seq 0 C))
    (seq 0 B).

Definition build2 (B W : nat) (f : nat -> nat -> A) : list A :=
  flat_map (fun n => map (f n) (seq 0 W)) (seq 0 B).
End Tensor.
Arguments ndarray A : clear implicits.
End Tensor.
Import Tensor.

(** ** chainer.functions

    The framework is not part of the notebook.  The layer functions the
    forward pass calls are written here with the behaviour Chainer v1
    documents and implements for them: type checks that raise
    [InvalidType], output sizes from [get_conv_outsize], values from the
    im2col formulation.  Summations run in row-major order of the window;
    no theorem below depends on that order. *)

Module F.
Section Functions.
Context {A : Type} {SA : Scalar A}.

(** Modelled from the spec: chainer.utils.conv.get_conv_outsize, absent
    from the notebook; (size + 2p - k) // s + 1, or with s - 1 added to
    the numerator when the windows must cover every pixel, with Python's
    floor division.  A negative size makes numpy refuse to allocate the
    output. *)
Definition get_conv_outsize (size k s p : nat) (cover_all : bool) : result nat :=
  if s =? 0 then Raise ZeroDivisionError
  else
    let extra := if cover_all then (Z.of_nat s - 1)%Z else 0%Z in
    let out :=
      ((Z.of_nat size + Z.of_nat p * 2 - Z.of_nat k + extra) / Z.of_nat s + 1)%Z in
    if (out <? 0)%Z then Raise (ValueError "negative dimensions are not allowed")
    else Ok (Z.to_nat out).

(** Element (n, c, y, x) of the image seen through a border of [ph] rows
    and [pw] columns filled with [pval] (im2col reads the image so). *)
Definition padded (c h w ph pw : nat) (pval : A) (img : list A)
    (n ic y x : nat) : A :=
  if (ph <=? y) && (y <? h + ph) && (pw <=? x) && (x <? w + pw)
  then at4 c h w img n ic (y - ph) (x - pw)
  else pval.

(** The (channel, row, column) positions of a convolution window. *)
Definition window (c kh kw : nat) : list (nat * nat * nat) :=
  flat_map (fun ic =>
    flat_map (fun ky => map (fun kx => (ic, ky, kx)) (seq 0 kw)) (seq 0 kh))
    (seq 0 c).

(** Modelled from the spec: F.convolution_2d(x, W, b, stride, pad),
    absent from the notebook.  x is (n, c, h, w), W is (oc, c, kh, kw),
    b is (oc); output pixel (i, o, oy, ox) is b[o] plus the sum over the
    window of x, read through [pad] rows and columns of zeros, times W. *)
Definition convolution_2d (x W b : ndarray A) (stride pad : nat)
    : result (ndarray A) :=
  match shape x, shape W, shape b with
  | [n; c; h; w], [oc; c'; kh; kw], [ob] =>
      if (c =? c') && (ob =? oc) then
        (oh <- get_conv_outsize h kh stride pad false ;;
         ow <- get_conv_outsize w kw stride pad false ;;
         Ok (mk [n; oc; oh; ow]
               (build4 n oc oh ow (fun i o oy ox =>
                  s_add
                    (fold_left
                       (fun acc '(ic, ky, kx) =>
                          s_add acc
                            (s_mul
                               (padded c h w pad pad s_zero (data x)
                                  i ic (oy * stride + ky) (ox * stride + kx))
                               (at4 c' kh kw (data W) o ic ky kx)))
                       (window c kh kw) s_zero)
                    (nth o (data b) s_zero)))))%result
      else Raise (InvalidType "convolution_2d")
  | _, _, _ => Raise (InvalidType "convolution_2d")
  end.

(** Modelled from the spec: F.tanh(x), absent from the notebook; the
    scalar tanh applied to every element, for any shape. *)
Definition tanh (x : ndarray A) : ndarray A :=
  mk (shape x) (map s_tanh (data x)).

(** The cells of the pooling window rows [y0, y1) by columns [x0, x1). *)
Definition cells (y0 y1 x0 x1 : nat) : list (nat * nat) :=
  flat_map (fun y => map (pair y) (seq x0 (x1 - x0))) (seq y0 (y1 - y0)).

(** The running maximum of the pooling kernel: it starts from the first
    cell of the clipped window and keeps the larger value. *)
Definition pool_max (g : nat -> nat -> A) (y0 y1 x0 x1 : nat) : A :=
  fold_left (fun m '(y, x) => let v := g y x in if s_ltb m v then v else m)
    (cells y0 y1 x0 x1) (g y0 x0).

(** Modelled from the spec: F.max_pooling_2d(x, ksize, stride=None,
    pad=0, cover_all=True), absent from the notebook.  The stride defaults
    to the kernel size; each output pixel is the largest input value under
    its window, clipped to the image. *)
Definition max_pooling_2d (x : ndarray A) (ksize : nat) (stride : option nat)
    (pad : nat) (cover_all : bool) : result (ndarray A) :=
  let s := match stride with Some s => s | None => ksize end in
  match shape x with
  | [n; c; h; w] =>
      (oh <- get_conv_outsize h ksize s pad cover_all ;;
       ow <- get_conv_outsize w ksize s pad cover_all ;;
       Ok (mk [n; c; oh; ow]
             (build4 n c oh ow (fun i ch oy ox =>
                pool_max (at4 c h w (data x) i ch)
                  (oy * s - pad) (Nat.min h (oy * s + ksize - pad))
                  (ox * s - pad) (Nat.min w (ox * s + ksize - pad))))))%result
  | _ => Raise (InvalidType "max_pooling_2d")
  end.

(** Modelled from the spec: F.linear(x, W, b), absent from the notebook.
    x is viewed as a matrix with one row per sample
    ([x.reshape(len(x), -1)]), then y = x W^T + b. *)
Definition linear (x W b : ndarray A) : result (ndarray A) :=
  match shape x, shape W, shape b with
  | n :: rest, [out; inn], [ob] =>
      if (1 <=? length rest) && (size rest =? inn) && (ob =? out) then
        Ok (mk [n; out]
              (build2 n out (fun i o =>
                 s_add
                   (fold_left
                      (fun acc k =>
                         s_add acc (s_mul (at2 inn (data x) i k)
                                          (at2 inn (data W) o k)))
                      (seq 0 inn) s_zero)
                   (nth o (data b) s_zero))))
      else Raise (InvalidType "linear")
  | _, _, _ => Raise (InvalidType "linear")
  end.
End Functions.
End F.

(** ** chainer.links

    A link owns its parameter arrays and applies the function of the same
    name to them.  The constructors allocate W with the documented shape
    from an initializer [init] (random in the framework, arbitrary here)
    and a zero bias. *)

Module L.
Section Links.
Context {A : Type} {SA : Scalar A}.

Record Convolution2D : Type := mkConvolution2D {
  conv_W : ndarray A;
  conv_b : ndarray A;
  conv_stride : nat;
  conv_pad : nat
}.

Record Linear : Type := mkLinear {
  lin_W : ndarray A;
  lin_b : ndarray A
}.

(** Modelled from the spec: L.Convolution2D(in_channels, out_channels,
    ksize, stride=1, pad=0), absent from the notebook. *)
Definition Convolution2D_init (in_channels out_channels ksize stride pad : nat)
    (init : nat -> A) : Convolution2D :=
  {| conv_W := mk [out_channels; in_channels; ksize; ksize]
                 (map init (seq 0 (out_channels * in_channels * ksize * ksize)));
     conv_b := mk [out_channels] (repeat s_zero out_channels);
     conv_stride := stride;
     conv_pad := pad |}.

(** Modelled from the spec: L.Linear(in_size, out_size), absent from the
    notebook. *)
Definition Linear_init (in_size out_size : nat) (init : nat -> A) : Linear :=
  {| lin_W := mk [out_size; in_size] (map init (seq 0 (out_size * in_size)));
     lin_b := mk [out_size] (repeat s_zero out_size) |}.

Definition Convolution2D_call (l : Convolution2D) (x : ndarray A)
    : result (ndarray A) :=
  F.convolution_2d x (conv_W l) (conv_b l) (conv_stride l) (conv_pad l).

Definition Linear_call (l : Linear) (x : ndarray A) : result (ndarray A) :=
  F.linear x (lin_W l) (lin_b l).
End Links.
Arguments Convolution2D A : clear implicits.
Arguments Linear A : clear implicits.
End L.

(** ** A state-and-exception monad for methods of an object

    A method runs against the object it is called on ([self]); it may read
    and assign its attributes and may raise. *)

Definition M (S T : Type) : Type := S -> result T * S.

Definition mret {S T : Type} (v : T) : M S T := fun self => (Ok v, self).

Definition mbind {S T U : Type} (m : M S T) (k : T -> M S U) : M S U :=
  fun self =>
    match m self with
    | (Ok v, self') => k v self'
    | (Raise e, self') => (Raise e, self')
    end.

(** Reading the attribute [f] of [self]. *)
Definition attr {S V : Type} (f : S -> V) : M S V := fun self => (Ok (f self), self).

(** Calling a function that does not touch [self]. *)
Definition lift {S T : Type} (r : result T) : M S T := fun self => (r, self).

Declare Scope method_scope.
Delimit Scope method_scope with method.
Notation "x <- c ;; k" := (mbind c (fun x => k))
  (at level 61, c at next level, right associativity) : method_scope.

(** ** The notebook: class LeNet5 *)

Section Notebook.
Context {A : Type} {SA : Scalar A}.

(** The attributes of a LeNet5 object: the five links registered with
    the chain and the flag [train]. *)
Record LeNet5 : Type := mkLeNet5 {
  conv1 : L.Convolution2D A;
  conv2 : L.Convolution2D A;
  fc1 : L.Linear A;
  fc2 : L.Linear A;
  fc3 : L.Linear A;
  train : bool
}.

(** LeNet5.__init__: [init k] is the initializer of the k-th link. *)
Definition LeNet5_init (init : nat -> nat -> A) : LeNet5 :=
  {| conv1 := L.Convolution2D_init 1 6 5 1 2 (init 0);
     conv2 := L.Convolution2D_init 6 16 5 1 0 (init 1);
     fc1 := L.Linear_init 400 120 (init 2);
     fc2 := L.Linear_init 120 84 (init 3);
     fc3 := L.Linear_init 84 10 (init 4);
     train := true |}.

(** [self.link(x)] for a convolution and for a linear link. *)
Definition call_conv (link : LeNet5 -> L.Convolution2D A) (x : ndarray A)
    : M LeNet5 (ndarray A) :=
  (l <- attr link ;; lift (L.Convolution2D_call l x))%method.

Definition call_linear (link : LeNet5 -> L.Linear A) (x : ndarray A)
    : M LeNet5 (ndarray A) :=
  (l <- attr link ;; lift (L.Linear_call l x))%method.

(** [F.max_pooling_2d(h, 2)]: the remaining arguments take their
    defaults (stride=None, pad=0, cover_all=True). *)
Definition max_pooling_2d_2 (h : ndarray A) : M LeNet5 (ndarray A) :=
  lift (F.max_pooling_2d h 2 None 0 true).

(** LeNet5.__call__ *)
Definition LeNet5_call (x : ndarray A) : M LeNet5 (ndarray A) :=
  (h <- call_conv conv1 x ;;
   let h := F.tanh h in
   h <- max_pooling_2d_2 h ;;
   h <- call_conv conv2 h ;;
   let h := F.tanh h in
   h <- max_pooling_2d_2 h ;;
   h <- call_linear fc1 h ;;
   let h := F.tanh h in
   h <- call_linear fc2 h ;;
   let h := F.tanh h in
   call_linear fc3 h)%method.

(** The value a call returns (or the exception it raises). *)
Definition forward (self : LeNet5) (x : ndarray A) : result (ndarray A) :=
  fst (LeNet5_call x self).

(** The successive values of the local variable [h] of __call__, one per
    assignment, in order. *)
Definition activations (x : ndarray A) : M LeNet5 (list (ndarray A)) :=
  (c1 <- call_conv conv1 x ;;
   let h1 := F.tanh c1 in
   h2 <- max_pooling_2d_2 h1 ;;
   c2 <- call_conv conv2 h2 ;;
   let h3 := F.tanh c2 in
   h4 <- max_pooling_2d_2 h3 ;;
   f1 <- call_linear fc1 h4 ;;
   let h5 := F.tanh f1 in
   f2 <- call_linear fc2 h5 ;;
   let h6 := F.tanh f2 in
   mret [h1; h2; h3; h4; h5; h6])%method.

(** What the constructor fixes: the shape of every parameter array and
    the stride and padding of the convolutions. *)
Definition conv_config (l : L.Convolution2D A) : list nat * list nat * nat * nat :=
  (shape (L.conv_W l), shape (L.conv_b l), L.conv_stride l, L.conv_pad l).

Definition linear_config (l : L.Linear A) : list nat * list nat :=
  (shape (L.lin_W l), shape (L.lin_b l)).

Definition topology (self : LeNet5) :=
  (conv_config (conv1 self), conv_config (conv2 self),
   linear_config (fc1 self), linear_config (fc2 self), linear_config (fc3 self)).

(** A model whose parameters have the shapes __init__ allocated. *)
Definition configured (self : LeNet5) : Prop :=
  topology self = topology (LeNet5_init (fun _ _ => s_zero)).
End Notebook.
Arguments LeNet5 A : clear implicits.

(** ** The pipeline as the specification words it

    pad input to 32x32 -> conv(1->6, kernel 5) -> tanh -> max-pool(2) ->
    conv(6->16, kernel 5) -> tanh -> max-pool(2) -> flatten ->
    linear(400->120) -> tanh -> linear(120->84) -> tanh -> linear(84->10).

    Each stage is written from its textbook meaning, with the sizes the
    specification names checked by the stage itself. *)

Module Spec.
Section Pipeline.
Context {A : Type} {SA : Scalar A}.

(** Centre the image in a frame of zeros of size sh x sw. *)
Definition pad_to (sh sw : nat) (x : ndarray A) : result (ndarray A) :=
  match shape x with
  | [n; c; h; w] =>
      if (h <=? sh) && (w <=? sw) then
        let top := (sh - h) / 2 in
        let left := (sw - w) / 2 in
        Ok (mk [n; c; sh; sw]
              (build4 n c sh sw (fun i ch y x' =>
                 if (top <=? y) && (y <? top + h) && (left <=? x') && (x' <? left + w)
                 then at4 c h w (data x) i ch (y - top) (x' - left)
                 else s_zero)))
      else Raise (ValueError "pad_to")
  | _ => Raise (ValueError "pad_to")
  end.

(** conv(cin->cout, kernel k): stride 1, no padding; every output pixel
    is the bias plus the sum of the kxkxcin products under the window. *)
Definition conv (cin cout k : nat) (l : L.Convolution2D A) (x : ndarray A)
    : result (ndarray A) :=
  match shape x with
  | [n; c; h; w] =>
      if (c =? cin) && (k <=? h) && (k <=? w)
         && shape_eqb (shape (L.conv_W l)) [cout; cin; k; k]
         && shape_eqb (shape (L.conv_b l)) [cout]
      then
        Ok (mk [n; cout; h - k + 1; w - k + 1]
              (build4 n cout (h - k + 1) (w - k + 1) (fun i o oy ox =>
                 s_add
                   (fold_left
                      (fun acc '(ic, ky, kx) =>
                         s_add acc
                           (s_mul (at4 cin h w (data x) i ic (oy + ky) (ox + kx))
                                  (at4 cin k k (data (L.conv_W l)) o ic ky kx)))
                      (F.window cin k k) s_zero)
                   (nth o (data (L.conv_b l)) s_zero))))
      else Raise (InvalidType "conv")
  | _ => Raise (InvalidType "conv")
  end.

Definition tanh (x : ndarray A) : ndarray A :=
  mk (shape x) (map s_tanh (data x)).

Definition max2 (a v : A) : A := if s_ltb a v then v else a.

(** max-pool(2): the largest of each disjoint 2x2 block. *)
Definition max_pool2 (x : ndarray A) : result (ndarray A) :=
  match shape x with
  | [n; c; h; w] =>
      Ok (mk [n; c; h / 2; w / 2]
            (build4 n c (h / 2) (w / 2) (fun i ch oy ox =>
               let g := at4 c h w (data x) i ch in
               max2 (max2 (max2 (g (2 * oy) (2 * ox)) (g (2 * oy) (2 * ox + 1)))
                          (g (2 * oy + 1) (2 * ox)))
                    (g (2 * oy + 1) (2 * ox + 1)))))
  | _ => Raise (InvalidType "max_pool2")
  end.

(** flatten: one row per sample. *)
Definition flatten (x : ndarray A) : result (ndarray A) :=
  match shape x with
  | n :: rest => Ok (mk [n; size rest] (data x))
  | [] => Raise (InvalidType "flatten")
  end.

(** linear(cin->cout) on a matrix: y = x W^T + b. *)
Definition linear (cin cout : nat) (l : L.Linear A) (x : ndarray A)
    : result (ndarray A) :=
  match shape x with
  | [n; i] =>
      if (i =? cin)
         && shape_eqb (shape (L.lin_W l)) [cout; cin]
         && shape_eqb (shape (L.lin_b l)) [cout]
      then
        Ok (mk [n; cout]
              (build2 n cout (fun r o =>
                 s_add
                   (fold_left
                      (fun acc j =>
                         s_add acc (s_mul (at2 cin (data x) r j)
                                          (at2 cin (data (L.lin_W l)) o j)))
                      (seq 0 cin) s_zero)
                   (nth o (data (L.lin_b l)) s_zero))))
      else Raise (InvalidType "linear")
  | _ => Raise (InvalidType "linear")
  end.

Definition pipeline (self : LeNet5 A) (x : ndarray A) : result (ndarray A) :=
  (x <- pad_to 32 32 x ;;
   h <- conv 1 6 5 (conv1 self) x ;;
   let h := tanh h in
   h <- max_pool2 h ;;
   h <- conv 6 16 5 (conv2 self) h ;;
   let h := tanh h in
   h <- max_pool2 h ;;
   h <- flatten h ;;
   h <- linear 400 120 (fc1 self) h ;;
   let h := tanh h in
   h <- linear 120 84 (fc2 self) h ;;
   let h := tanh h in
   linear 84 10 (fc3 self) h)%result.
End Pipeline.
End Spec.

(** ** The forward pass as a chain of layers *)

Section Chain.
Context {A : Type} {SA : Scalar A}.

(** Feeding a value through a list of fallible stages, first to last;
    the first exception ends the run. *)
Definition chain {T : Type} (fs : list (T -> result T)) (x : T) : result T :=
  fold_left (fun r f => rbind r f) fs (Ok x).

(** The layer applications of __call__, in the order of its lines. *)
Definition layers (self : LeNet5 A) : list (ndarray A -> result (ndarray A)) :=
  [ L.Convolution2D_call (conv1 self);
    (fun h => Ok (F.tanh h));
    (fun h => F.max_pooling_2d h 2 None 0 true);
    L.Convolution2D_call (conv2 self);
    (fun h => Ok (F.tanh h));
    (fun h => F.max_pooling_2d h 2 None 0 true);
    L.Linear_call (fc1 self);
    (fun h => Ok (F.tanh h));
    L.Linear_call (fc2 self);
    (fun h => Ok (F.tanh h));
    L.Linear_call (fc3 self) ].
End Chain.

(** ** One forward pass, stage by stage *)

Section Trace.
Context {A : Type} {SA : Scalar A}.

(** The values a forward pass goes through on a batch of [B] images,
    with the stage of the code and the stage of the specification that
    produce each of them. *)
Record Trace (self : LeNet5 A) (x : ndarray A) (B : nat)
    (x32 c1 h2 c2 h4 m f1 f2 y : ndarray A) : Prop := {
  tr_pad : Spec.pad_to 32 32 x = Ok x32;
  tr_x32 : shape x32 = [B; 1; 32; 32];
  tr_conv1 : L.Convolution2D_call (conv1 self) x = Ok c1;
  tr_conv1_spec : Spec.conv 1 6 5 (conv1 self) x32 = Ok c1;
  tr_c1 : shape c1 = [B; 6; 28; 28];
  tr_pool1 : F.max_pooling_2d (F.tanh c1) 2 None 0 true = Ok h2;
  tr_pool1_spec : Spec.max_pool2 (Spec.tanh c1) = Ok h2;
  tr_h2 : shape h2 = [B; 6; 14; 14];
  tr_conv2 : L.Convolution2D_call (conv2 self) h2 = Ok c2;
  tr_conv2_spec : Spec.conv 6 16 5 (conv2 self) h2 = Ok c2;
  tr_c2 : shape c2 = [B; 16; 10; 10];
  tr_pool2 : F.max_pooling_2d (F.tanh c2) 2 None 0 true = Ok h4;
  tr_pool2_spec : Spec.max_pool2 (Spec.tanh c2) = Ok h4;
  tr_h4 : shape h4 = [B; 16; 5; 5];
  tr_flatten : Spec.flatten h4 = Ok m;
  tr_m : shape m = [B; 400];
  tr_fc1 : L.Linear_call (fc1 self) h4 = Ok f1;
  tr_fc1_spec : Spec.linear 400 120 (fc1 self) m = Ok f1;
  tr_f1 : shape f1 = [B; 120];
  tr_fc2 : L.Linear_call (fc2 self) (F.tanh f1) = Ok f2;
  tr_fc2_spec : Spec.linear 120 84 (fc2 self) (Spec.tanh f1) = Ok f2;
  tr_f2 : shape f2 = [B; 84];
  tr_fc3 : L.Linear_call (fc3 self) (F.tanh f2) = Ok y;
  tr_fc3_spec : Spec.linear 84 10 (fc3 self) (Spec.tanh f2) = Ok y;
  tr_y : shape y = [B; 10];
  tr_y_data : length (data y) = B * 10
}.
End Trace.


(** ** chainer.iterators

    [SerialIterator] belongs to the framework; the notebook only chooses
    its arguments.  The iterator walks the dataset in batches, through a
    permutation of the indices when it shuffles.  A repeating iterator
    wraps around at the end of the dataset, so that the batch that ends an
    epoch is completed from the start of the next one; a non-repeating
    iterator stops after one pass.  The random generator is the function
    [rng], which returns its argument in a new order. *)

Module iterators.
Section SerialIterator.
Context {T : Type}.
Variable rng : list nat -> list nat.

Record SerialIterator : Type := mkSerialIterator {
  dataset : list T;
  batch_size : nat;
  repeating : bool;
  order : option (list nat);
  current_position : nat;
  epoch : nat;
  is_new_epoch : bool
}.

(** Modelled from the spec: SerialIterator(dataset, batch_size,
    repeat=True, shuffle=True), absent from the notebook. *)
Definition SerialIterator_init (dataset : list T) (batch_size : nat)
    (repeat shuffle : bool) : SerialIterator :=
  {| dataset := dataset;
     batch_size := batch_size;
     repeating := repeat;
     order := if shuffle then Some (rng (seq 0 (length dataset))) else None;
     current_position := 0;
     epoch := 0;
     is_new_epoch := false |}.

(** Python's [l[i:j]]: the slice is cut short at the end of the list. *)
Definition slice {X : Type} (l : list X) (i j : nat) : list X :=
  firstn (j - i) (skipn i l).

(** [[dataset[index] for index in indices]] *)
Fixpoint gather (ds : list T) (indices : list nat) : result (list T) :=
  match indices with
  | [] => Ok []
  | k :: rest =>
      match nth_error ds k with
      | Some v => (vs <- gather ds rest ;; Ok (v :: vs))%result
      | None => Raise IndexError
      end
  end.

Definition samples (ds : list T) (ord : option (list nat)) (i j : nat)
    : result (list T) :=
  match ord with
  | None => Ok (slice ds i j)
  | Some o => gather ds (slice o i j)
  end.

(** Modelled from the spec: SerialIterator.__next__, absent from the
    notebook; the batch and the iterator afterwards. *)
Definition next (it : SerialIterator) : result (list T * SerialIterator) :=
  if negb (repeating it) && (0 <? epoch it) then Raise StopIteration
  else
    let i := current_position it in
    let i_end := i + batch_size it in
    let N := length (dataset it) in
    (batch <- samples (dataset it) (order it) i i_end ;;
     if N <=? i_end then
       if repeating it then
         let rest := i_end - N in
         let order' := option_map rng (order it) in
         (more <- (if 0 <? rest then samples (dataset it) order' 0 rest else Ok []) ;;
          Ok (batch ++ more,
              {| dataset := dataset it; batch_size := batch_size it;
                 repeating := repeating it; order := order';
                 current_position := rest;
                 epoch := S (epoch it); is_new_epoch := true |}))
       else
         Ok (batch,
             {| dataset := dataset it; batch_size := batch_size it;
                repeating := repeating it; order := order it;
                current_position := N;
                epoch := S (epoch it); is_new_epoch := true |})
     else
       Ok (batch,
           {| dataset := dataset it; batch_size := batch_size it;
              repeating := repeating it; order := order it;
              current_position := i_end;
              epoch := epoch it; is_new_epoch := false |}))%result.

(** The first [k] batches of an iterator. *)
Fixpoint take (k : nat) (it : SerialIterator)
    : result (list (list T) * SerialIterator) :=
  match k with
  | 0 => Ok ([], it)
  | S k' =>
      (r <- next it ;;
       rs <- take k' (snd r) ;;
       Ok (fst r :: fst rs, snd rs))%result
  end.

(** [for batch in it]: every batch until StopIteration.  The loop is
    bounded by [fuel]; running out of it is reported as [None]. *)
Fixpoint drain (fuel : nat) (it : SerialIterator) : option (result (list (list T))) :=
  match fuel with
  | 0 => None
  | S fuel' =>
      match next it with
      | Raise StopIteration => Some (Ok [])
      | Raise e => Some (Raise e)
      | Ok (batch, it') =>
          match drain fuel' it' with
          | Some (Ok bs) => Some (Ok (batch :: bs))
          | other => other
          end
      end
  end.
End SerialIterator.
End iterators.

(** ** The notebook: the dataset iterators *)

Section NotebookIterators.
Context {T : Type}.
Variable rng : list nat -> list nat.

Definition batchsize : nat := 128.

(** [SerialIterator(train, batchsize)]: repeat and shuffle keep their
    default, True. *)
Definition train_iter (train : list T) : iterators.SerialIterator :=
  iterators.SerialIterator_init rng train batchsize true true.

(** [SerialIterator(test, batchsize, repeat=False, shuffle=False)] *)
Definition test_iter (test : list T) : iterators.SerialIterator :=
  iterators.SerialIterator_init rng test batchsize false false.
End NotebookIterators.

(** ** States of the two iterators *)

Section IteratorStates.
Context {T : Type}.

(** The states a shuffling, repeating iterator over [train] goes through. *)
Definition training_state (train : list T) (it : @iterators.SerialIterator T) : Prop :=
  iterators.dataset it = train
  /\ iterators.batch_size it = batchsize
  /\ iterators.repeating it = true
  /\ (exists o, iterators.order it = Some o
                /\ Permutation o (seq 0 (length train)))
  /\ iterators.current_position it < length train.

(** The states of the evaluation iterator during its pass over [test],
    when it stands at position [i]. *)
Definition testing_state (test : list T) (i : nat) (it : @iterators.SerialIterator T)
    : Prop :=
  iterators.dataset it = test
  /\ iterators.batch_size it = batchsize
  /\ iterators.repeating it = false
  /\ iterators.order it = None
  /\ iterators.current_position it = i
  /\ iterators.epoch it = 0
  /\ i <= length test.
End IteratorStates.

(** ** chainer.training

    The trainer, its triggers and its extensions belong to the framework.
    The trainer repeats: stop if the stop trigger fires; run one update;
    offer the updated state to every registered extension, which runs
    when its trigger fires. *)

Module training.

Inductive unit_ : Type := Epoch | Iteration.

Inductive Trigger : Type :=
| Interval (period : N) (unit : unit_)
| AtIteration (n : N).

(** What the trainer reads from the updater and, through it, from the
    training iterator: the counters of a repeating [SerialIterator] over
    [train_size] samples, and the number of updates done. *)
Record Updater : Type := mkUpdater {
  train_size : N;
  batch_size : N;
  current_position : N;
  epoch : N;
  is_new_epoch : bool;
  iteration : N
}.

(** StandardUpdater(train_iter, optimizer) over a fresh iterator. *)
Definition StandardUpdater (train_size batch_size : N) : Updater :=
  {| train_size := train_size; batch_size := batch_size;
     current_position := 0; epoch := 0; is_new_epoch := false; iteration := 0 |}.

(** Modelled from the spec: StandardUpdater.update, absent from the
    notebook; take the next batch, let the optimizer update the
    parameters on it, count the iteration. *)
Definition update (u : Updater) : Updater :=
  let i_end := (current_position u + batch_size u)%N in
  if (train_size u <=? i_end)%N then
    {| train_size := train_size u; batch_size := batch_size u;
       current_position := (i_end - train_size u)%N;
       epoch := N.succ (epoch u); is_new_epoch := true;
       iteration := N.succ (iteration u) |}
  else
    {| train_size := train_size u; batch_size := batch_size u;
       current_position := i_end;
       epoch := epoch u; is_new_epoch := false;
       iteration := N.succ (iteration u) |}.

(** Modelled from the spec: IntervalTrigger.__call__, absent from the
    notebook.  [(period, 'epoch')] fires on the update that completes an
    epoch whose number is a multiple of [period]; [(period, 'iteration')]
    fires on every [period]-th update. *)
Definition fires (t : Trigger) (u : Updater) : bool :=
  match t with
  | Interval period Epoch => is_new_epoch u && (epoch u mod period =? 0)%N
  | Interval period Iteration =>
      (0 <? iteration u)%N && (iteration u mod period =? 0)%N
  | AtIteration n => (iteration u =? n)%N
  end.

(** An extension: its name, the trigger it is registered with unless
    [extend] is given another, and the condition under which a call of it
    does its work (reports accumulate at every call and write at theirs). *)
Record Extension : Type := mkExtension {
  name : string;
  default_trigger : Trigger;
  works_when : Trigger
}.

Record Entry : Type := mkEntry {
  extension : Extension;
  trigger : Trigger
}.

Record Trainer : Type := mkTrainer {
  updater : Updater;
  stop_trigger : Trigger;
  extensions : list Entry
}.

(** Trainer(updater, stop_trigger) *)
Definition Trainer_init (u : Updater) (stop : Trigger) : Trainer :=
  {| updater := u; stop_trigger := stop; extensions := [] |}.

(** Modelled from the spec: Trainer.extend(extension, trigger=None),
    absent from the notebook; without a trigger the extension is
    registered with its own default. *)
Definition extend (tr : Trainer) (ext : Extension) (trigger : option Trigger)
    : Trainer :=
  {| updater := updater tr;
     stop_trigger := stop_trigger tr;
     extensions := extensions tr ++
       [ {| extension := ext;
            trigger := match trigger with
                       | Some t => t
                       | None => default_trigger ext
                       end |} ] |}.

(** One piece of work done by an extension: after which update, in which
    epoch, by whom. *)
Record Event : Type := mkEvent {
  at_iteration : N;
  at_epoch : N;
  source : string
}.

Definition dispatch (u : Updater) (es : list Entry) : list Event :=
  map (fun e => {| at_iteration := iteration u; at_epoch := epoch u;
                   source := name (extension e) |})
      (filter (fun e => fires (trigger e) u && fires (works_when (extension e)) u) es).

(** Modelled from the spec: Trainer.run, absent from the notebook,
    bounded by [fuel] updates; the events are returned latest first. *)
Fixpoint run_loop (fuel : nat) (tr : Trainer) (log : list Event)
    : option (Trainer * list Event) :=
  if fires (stop_trigger tr) (updater tr) then Some (tr, log)
  else
    match fuel with
    | 0 => None
    | S fuel' =>
        let u := update (updater tr) in
        run_loop fuel'
          {| updater := u; stop_trigger := stop_trigger tr;
             extensions := extensions tr |}
          (rev (dispatch u (extensions tr)) ++ log)
    end.

Definition run (fuel : nat) (tr : Trainer) : option (Trainer * list Event) :=
  match run_loop fuel tr [] with
  | Some (tr', log) => Some (tr', rev log)
  | None => None
  end.

(** The epochs in which the extension called [who] did its work. *)
Definition epochs_of (who : string) (log : list Event) : list N :=
  map at_epoch (filter (fun ev => String.eqb (source ev) who) log).

End training.

Section Tracking.
Context {T : Type}.

(** The updater's counters are those of the iterator it draws from. *)
Definition tracks (it : @iterators.SerialIterator T) (u : training.Updater) : Prop :=
  training.train_size u = N.of_nat (length (iterators.dataset it))
  /\ training.batch_size u = N.of_nat (iterators.batch_size it)
  /\ training.current_position u = N.of_nat (iterators.current_position it)
  /\ training.epoch u = N.of_nat (iterators.epoch it)
  /\ training.is_new_epoch u = iterators.is_new_epoch it.
End Tracking.

(** ** chainer.training.extensions

    The extensions the notebook registers, with the triggers the
    framework gives them by default. *)

Module E.
Import training.

(** Modelled from the spec: the extension objects, absent from the
    notebook.  Evaluator and snapshot run once per epoch by default;
    dump_graph runs after the first update; the reports are called after
    every update and write once per epoch. *)
Definition Evaluator : Extension :=
  {| name := "validation"; default_trigger := Interval 1 Epoch;
     works_when := Interval 1 Iteration |}.

Definition dump_graph : Extension :=
  {| name := "dump_graph"; default_trigger := AtIteration 1;
     works_when := Interval 1 Iteration |}.

Definition snapshot : Extension :=
  {| name := "snapshot"; default_trigger := Interval 1 Epoch;
     works_when := Interval 1 Iteration |}.

Definition LogReport : Extension :=
  {| name := "LogReport"; default_trigger := Interval 1 Iteration;
     works_when := Interval 1 Epoch |}.

Definition PlotReport (file_name : string) : Extension :=
  {| name := file_name; default_trigger := Interval 1 Iteration;
     works_when := Interval 1 Epoch |}.

Definition PrintReport : Extension :=
  {| name := "PrintReport"; default_trigger := Interval 1 Iteration;
     works_when := Interval 1 Epoch |}.

End E.

(** ** The notebook: the trainer *)

(** "It consists of 60000 samples for training and 10000 for testing." *)
Definition mnist_train_size : nat := 60 * 1000.

Definition mnist_test_size : nat := 10 * 1000.

Definition epoch : N := 10.

Definition updater : training.Updater :=
  training.StandardUpdater (N.of_nat mnist_train_size) (N.of_nat batchsize).

Definition trainer : training.Trainer :=
  let trainer := training.Trainer_init updater (training.Interval epoch training.Epoch) in
  (* Evaluate the model with the test dataset for each epoch *)
  let trainer := training.extend trainer E.Evaluator None in
  (* Dump a computational graph from 'loss' variable at the first iteration *)
  let trainer := training.extend trainer E.dump_graph None in
  (* Take a snapshot at each epoch *)
  let trainer := training.extend trainer E.snapshot
                   (Some (training.Interval epoch training.Epoch)) in
  (* Write a log of evaluation statistics for each epoch *)
  let trainer := training.extend trainer E.LogReport None in
  (* Save two plot images to the result dir *)
  let trainer := training.extend trainer (E.PlotReport "loss.png") None in
  let trainer := training.extend trainer (E.PlotReport "accuracy.png") None in
  (* Print selected entries of the log to stdout *)
  training.extend trainer E.PrintReport None.

(** [trainer.run()] *)
Definition trainer_run : option (training.Trainer * list training.Event) :=
  training.run 5000 trainer.

(** The same set-up with the snapshot left on its own trigger, as the
    comment above its registration describes it. *)
Definition trainer_snapshot_each_epoch : training.Trainer :=
  let trainer := training.Trainer_init updater (training.Interval epoch training.Epoch) in
  training.extend trainer E.snapshot None.

(** ** Scalars to run and to reason with *)

(** Real numbers, with the hyperbolic tangent of the standard library. *)
#[local] Instance R_scalar : Scalar R := {|
  s_zero := 0%R;
  s_add := Rplus;
  s_mul := Rmult;
  s_ltb := fun a b => if Rlt_dec a b then true else false;
  s_tanh := Rtrigo_def.tanh
|}.

(** Integers, to run the layers on small arrays; the activation is the
    sign, the integer-valued stand-in for a squashing function. *)
#[local] Instance Z_scalar : Scalar Z := {|
  s_zero := 0%Z;
  s_add := Z.add;
  s_mul := Z.mul;
  s_ltb := Z.ltb;
  s_tanh := Z.sgn
|}.

(** [self.train = value] *)
Definition set_train {A : Type} (value : bool) (self : LeNet5 A) : LeNet5 A :=
  {| conv1 := conv1 self; conv2 := conv2 self;
     fc1 := fc1 self; fc2 := fc2 self; fc3 := fc3 self;
     train := value |}.

(** A closed interval of reals. *)
Definition within (lo hi v : R) : Prop := (lo <= v <= hi)%R.

(** ** Concrete models and batches *)

Definition model_Z : LeNet5 Z :=
  LeNet5_init (fun k i => (Z.of_nat ((k + i) mod 3) - 1)%Z).

Definition batch_Z : ndarray Z :=
  mk [2; 1; 28; 28] (map (fun i => Z.of_nat (i mod 5)) (seq 0 1568)).

Definition model_R : LeNet5 R :=
  LeNet5_init (fun k i => INR ((k + i) mod 3)).

Definition batch_R : ndarray R :=
  mk [1; 1; 28; 28] (map (fun i => INR (i mod 5)) (seq 0 784)).

Definition batch_27 : ndarray Z :=
  mk [2; 1; 27; 27] (map (fun i => Z.of_nat (i mod 5)) (seq 0 1458)).

(** ** Input sizes

    The side of the feature map that reaches fc1 when the image side is
    [h]: conv1 keeps it, each pooling halves it rounding up, conv2 takes
    four away and needs at least four to start from. *)
Definition feature_side (h : nat) : option nat :=
  let pooled := (h + 1) / 2 in
  if 4 <=? pooled then Some ((pooled - 4 + 1) / 2) else None.

(** The image sizes whose feature maps hold 400 values. *)
Definition accepted_size (h w : nat) : Prop :=
  (25 <= h <= 28 /\ 25 <= w <= 28)
  \/ (9 <= h <= 12 /\ 105 <= w <= 108)
  \/ (105 <= h <= 108 /\ 9 <= w <= 12).

Definition batch_10x106 : ndarray Z :=
  mk [1; 1; 10; 106] (map (fun i => Z.of_nat (i mod 5)) (seq 0 1060)).

(** ** One sample of a batch

    Sample [i] of the buffer [d] and sample [j] of the buffer [d'] hold
    the same values, for arrays with trailing dimensions (C, H, W) and for
    matrices with rows of length W. *)
Definition same_sample4 {A : Type} {SA : Scalar A} (C H W : nat)
    (d d' : list A) (i j : nat) : Prop :=
  forall c y x, c < C -> y < H -> x < W ->
    at4 C H W d i c y x = at4 C H W d' j c y x.

Definition same_row {A : Type} {SA : Scalar A} (W : nat)
    (d d' : list A) (i j : nat) : Prop :=
  forall x, x < W -> at2 W d i x = at2 W d' j x.

(** The second image of [batch_Z], as a batch of its own. *)
Definition second_of_batch_Z : ndarray Z :=
  mk [1; 1; 28; 28] (skipn 784 (data batch_Z)).

(** ** A bound on the logits

    The absolute values of row [o] of the weights of a linear link with 84
    inputs, summed, plus the absolute value of its bias [o]. *)
Definition logit_bound (l : L.Linear R) (o : nat) : R :=
  (fold_left (fun acc j => acc + Rabs (at2 84 (data (L.lin_W l)) o j))
     (seq 0 84) 0
   + Rabs (nth o (data (L.lin_b l)) 0))%R.

(** ** The stream of training samples

    A repeating, shuffling iterator over [train] that has handed out the
    samples [consumed] so far: [done] are the passes it has completed and
    [pass] is the one it is in. *)
Definition stream_state {T : Type} (train : list T)
    (it : @iterators.SerialIterator T) (consumed : list T)
    (done : list (list T)) (pass : list T) : Prop :=
  iterators.dataset it = train
  /\ iterators.batch_size it = batchsize
  /\ iterators.repeating it = true
  /\ (exists o, iterators.order it = Some o /\ iterators.gather train o = Ok pass)
  /\ Permutation pass train
  /\ Forall (fun p => Permutation p train) done
  /\ length done = iterators.epoch it
  /\ iterators.current_position it < length train
  /\ consumed = concat done ++ firstn (iterators.current_position it) pass.

(** ** The trainer for any dataset size, batch size and number of epochs

    The cell that sets the trainer up, with its three numbers left open:
    the size of the training split, [batchsize] and [epoch]. *)
Definition trainer_for (train_size batch_size epochs : N) : training.Trainer :=
  let updater := training.StandardUpdater train_size batch_size in
  let trainer := training.Trainer_init updater (training.Interval epochs training.Epoch) in
  let trainer := training.extend trainer E.Evaluator None in
  let trainer := training.extend trainer E.dump_graph None in
  let trainer := training.extend trainer E.snapshot
                   (Some (training.Interval epochs training.Epoch)) in
  let trainer := training.extend trainer E.LogReport None in
  let trainer := training.extend trainer (E.PlotReport "loss.png") None in
  let trainer := training.extend trainer (E.PlotReport "accuracy.png") None in
  training.extend trainer E.PrintReport None.

(** The events of one extension, in the order they happened. *)
Definition events_of (who : string) (log : list training.Event)
    : list training.Event :=
  filter (fun ev => String.eqb (training.source ev) who) log.

(** The event an extension called [who] leaves when it works right after
    the update that led to [u]. *)
Definition event_at (u : training.Updater) (who : string) : training.Event :=
  {| training.at_iteration := training.iteration u;
     training.at_epoch := training.epoch u;
     training.source := who |}.

(** The epochs 1, 2, ..., e. *)
Definition epochs_upto (e : N) : list N := map N.of_nat (seq 1 (N.to_nat e)).

(** The counters of an updater that draws batches of [bs] samples from
    [n] for a run of [epochs] epochs: the samples drawn so far are the
    completed epochs plus the position in the current one, and an epoch
    has just been completed exactly when the position is back within the
    first batch. *)
Definition counting (n bs epochs : N) (u : training.Updater) : Prop :=
  training.train_size u = n
  /\ training.batch_size u = bs
  /\ (training.current_position u < n)%N
  /\ (training.epoch u * n + training.current_position u
      = training.iteration u * bs)%N
  /\ (training.epoch u <= epochs)%N
  /\ (training.is_new_epoch u = true ->
        (1 <= training.epoch u)%N /\ (training.current_position u < bs)%N)
  /\ (training.epoch u = epochs -> training.is_new_epoch u = true).

(** While the run goes on, either the stop trigger has not fired on the
    current state and no snapshot was taken, or it has just fired and the
    one snapshot was taken on this very state. *)
Definition snapshot_at_stop (epochs : N) (tr : training.Trainer)
    (log : list training.Event) : Prop :=
  let stop := training.Interval epochs training.Epoch in
  (training.fires stop (training.updater tr) = false
   /\ events_of "snapshot" log = [])
  \/ (training.fires stop (training.updater tr) = true
      /\ events_of "snapshot" log = [event_at (training.updater tr) "snapshot"]).
(** * Lemmas *)

(** ** Blocks of equal length laid out one after the other *)

Section Blocks.
Context {T : Type}.

Lemma flat_map_length_const (g : nat -> list T) (m : nat) (l : list nat) :
  (forall i, In i l -> length (g i) = m) ->
  length (flat_map g l) = length l * m.
Proof.
  induction l as [|a l IH]; intros Hg; simpl; [reflexivity|].
  rewrite length_app, Hg by (simpl; auto).
  rewrite IH; [reflexivity|].
  intros i Hi. apply Hg. now right.
Qed.

Lemma nth_flat_map_seq (g : nat -> list T) (m n s i j : nat) (d : T) :
  (forall k, s <= k < s + n -> length (g k) = m) ->
  i < n -> j < m ->
  nth (i * m + j) (flat_map g (seq s n)) d = nth j (g (s + i)) d.
Proof.
  revert s i. induction n as [|n IH]; intros s i Hg Hi Hj; [lia|].
  simpl. destruct i as [|i].
  - simpl. rewrite app_nth1 by (rewrite Hg; lia).
    now rewrite Nat.add_0_r.
  - rewrite app_nth2 by (rewrite Hg by lia; simpl; lia).
    rewrite Hg by lia.
    replace (S i * m + j - m) with (i * m + j) by (simpl; lia).
    rewrite IH by (try lia; intros k Hk; apply Hg; lia).
    f_equal. f_equal. lia.
Qed.

Lemma flat_map_ext_in (g h : nat -> list T) (l : list nat) :
  (forall i, In i l -> g i = h i) -> flat_map g l = flat_map h l.
Proof.
  induction l as [|a l IH]; intros E; simpl; [reflexivity|].
  rewrite E by (simpl; auto). f_equal. apply IH.
  intros i Hi. apply E. now right.
Qed.
End Blocks.

Lemma shape_eqb_eq (s t : list nat) : shape_eqb s t = true <-> s = t.
Proof.
  revert t. induction s as [|a s IH]; intros [|b t]; simpl; split; intros E;
    try reflexivity; try discriminate.
  - apply andb_true_iff in E as [E1 E2].
    apply Nat.eqb_eq in E1. apply IH in E2. congruence.
  - injection E as -> ->. rewrite Nat.eqb_refl. now apply IH.
Qed.

Section TensorFacts.
Context {A : Type} {SA : Scalar A}.

Lemma build2_length (B W : nat) (f : nat -> nat -> A) : length (build2 B W f) = B * W.
Proof.
  unfold build2. rewrite flat_map_length_const with (m := W).
  - now rewrite length_seq.
  - intros. now rewrite length_map, length_seq.
Qed.

Lemma build4_length (B C H W : nat) (f : nat -> nat -> nat -> nat -> A) : length (build4 B C H W f) = B * C * H * W.
Proof.
  unfold build4.
  rewrite flat_map_length_const with (m := C * H * W).
  - rewrite length_seq. lia.
  - intros n _. rewrite flat_map_length_const with (m := H * W).
    + rewrite length_seq. lia.
    + intros c _. rewrite flat_map_length_const with (m := W).
      * now rewrite length_seq.
      * intros. now rewrite length_map, length_seq.
Qed.

Lemma nth_map_seq (f : nat -> A) (n i : nat) (d : A) :
  i < n -> nth i (map f (seq 0 n)) d = f i.
Proof.
  intros Hi. rewrite nth_indep with (d' := f 0) by (now rewrite length_map, length_seq).
  rewrite map_nth. now rewrite seq_nth.
Qed.

Lemma at4_build4 (B C H W : nat) (f : nat -> nat -> nat -> nat -> A) (n c y x : nat) :
  n < B -> c < C -> y < H -> x < W ->
  at4 C H W (build4 B C H W f) n c y x = f n c y x.
Proof.
  intros Hn Hc Hy Hx. unfold at4, offset4, build4.
  assert (Lrow : forall n' c' y', length (map (f n' c' y') (seq 0 W)) = W)
    by (intros; now rewrite length_map, length_seq).
  assert (Lpl : forall n' c',
    length (flat_map (fun y' => map (f n' c' y') (seq 0 W)) (seq 0 H)) = H * W).
  { intros. rewrite flat_map_length_const with (m := W); [now rewrite length_seq | auto]. }
  assert (Lim : forall n',
    length (flat_map (fun c' =>
      flat_map (fun y' => map (f n' c' y') (seq 0 W)) (seq 0 H)) (seq 0 C)) = C * (H * W)).
  { intros. rewrite flat_map_length_const with (m := H * W); [now rewrite length_seq | auto]. }
  replace (((n * C + c) * H + y) * W + x)
    with (n * (C * (H * W)) + (c * (H * W) + (y * W + x))) by lia.
  assert (x + y * W < H * W) by nia.
  assert (y * W + x + c * (H * W) < C * (H * W)) by nia.
  rewrite nth_flat_map_seq with (m := C * (H * W)); auto; [|lia].
  rewrite nth_flat_map_seq with (m := H * W); auto; [|lia].
  rewrite nth_flat_map_seq with (m := W); auto.
  simpl. now apply nth_map_seq.
Qed.

Lemma at2_build2 (B W : nat) (f : nat -> nat -> A) (n x : nat) :
  n < B -> x < W -> at2 W (build2 B W f) n x = f n x.
Proof.
  intros Hn Hx. unfold at2, build2.
  rewrite nth_flat_map_seq with (m := W); auto.
  - simpl. now apply nth_map_seq.
  - intros. now rewrite length_map, length_seq.
Qed.

Lemma build4_ext (B C H W : nat) (f g : nat -> nat -> nat -> nat -> A) :
  (forall n c y x, n < B -> c < C -> y < H -> x < W -> f n c y x = g n c y x) ->
  build4 B C H W f = build4 B C H W g.
Proof.
  intros E. unfold build4.
  apply flat_map_ext_in. intros n Hn. apply in_seq in Hn.
  apply flat_map_ext_in. intros c Hc. apply in_seq in Hc.
  apply flat_map_ext_in. intros y Hy. apply in_seq in Hy.
  apply map_ext_in. intros x Hx. apply in_seq in Hx.
  apply E; lia.
Qed.

Lemma build2_ext (B W : nat) (f g : nat -> nat -> A) :
  (forall n x, n < B -> x < W -> f n x = g n x) ->
  build2 B W f = build2 B W g.
Proof.
  intros E. unfold build2.
  apply flat_map_ext_in. intros n Hn. apply in_seq in Hn.
  apply map_ext_in. intros x Hx. apply in_seq in Hx.
  apply E; lia.
Qed.

Lemma In_build4 (B C H W : nat) (f : nat -> nat -> nat -> nat -> A) (v : A) :
  In v (build4 B C H W f) ->
  exists n c y x, n < B /\ c < C /\ y < H /\ x < W /\ v = f n c y x.
Proof.
  unfold build4. intros Hv.
  apply in_flat_map in Hv as [n [Hn Hv]]. apply in_seq in Hn.
  apply in_flat_map in Hv as [c [Hc Hv]]. apply in_seq in Hc.
  apply in_flat_map in Hv as [y [Hy Hv]]. apply in_seq in Hy.
  apply in_map_iff in Hv as [x [Hv Hx]]. apply in_seq in Hx.
  exists n, c, y, x. repeat split; try lia. now symmetry.
Qed.

Lemma In_build2 (B W : nat) (f : nat -> nat -> A) (v : A) :
  In v (build2 B W f) -> exists n x, n < B /\ x < W /\ v = f n x.
Proof.
  unfold build2. intros Hv.
  apply in_flat_map in Hv as [n [Hn Hv]]. apply in_seq in Hn.
  apply in_map_iff in Hv as [x [Hv Hx]]. apply in_seq in Hx.
  exists n, x. repeat split; try lia. now symmetry.
Qed.
End TensorFacts.

(** ** Stage by stage: the framework functions on well-shaped inputs *)

Lemma fold_left_ext_in {X Y : Type} (f g : X -> Y -> X) (l : list Y) (a : X) :
  (forall acc y, In y l -> f acc y = g acc y) ->
  fold_left f l a = fold_left g l a.
Proof.
  revert a. induction l as [|y l IH]; intros a E; simpl; [reflexivity|].
  rewrite E by (simpl; auto). apply IH. intros acc y' Hy'. apply E. now right.
Qed.

Lemma fold_left_invariant {X Y : Type} (P : X -> Prop) (f : X -> Y -> X)
    (l : list Y) (a : X) :
  P a -> (forall acc y, P acc -> In y l -> P (f acc y)) -> P (fold_left f l a).
Proof.
  revert a. induction l as [|y l IH]; intros a Ha Hf; simpl; [exact Ha|].
  apply IH.
  - apply Hf; simpl; auto.
  - intros acc y' Hacc Hy'. apply Hf; simpl; auto.
Qed.

Lemma In_window (c kh kw ic ky kx : nat) :
  In (ic, ky, kx) (F.window c kh kw) -> ic < c /\ ky < kh /\ kx < kw.
Proof.
  unfold F.window. intros Hin.
  apply in_flat_map in Hin as [a [Ha Hin]]. apply in_seq in Ha.
  apply in_flat_map in Hin as [b [Hb Hin]]. apply in_seq in Hb.
  apply in_map_iff in Hin as [d [E Hd]]. apply in_seq in Hd.
  injection E as <- <- <-. lia.
Qed.

Lemma get_conv_outsize_valid (h k : nat) :
  k <= h -> F.get_conv_outsize h k 1 0 false = Ok (h - k + 1).
Proof.
  intros Hk. unfold F.get_conv_outsize. simpl Nat.eqb. cbv iota.
  change (Z.of_nat 1) with 1%Z. rewrite Z.div_1_r.
  destruct (Z.ltb_spec (Z.of_nat h + Z.of_nat 0 * 2 - Z.of_nat k + 0 + 1) 0); [lia|].
  f_equal. lia.
Qed.

Lemma get_conv_outsize_pad (h k s p : nat) (cover_all : bool) :
  F.get_conv_outsize (h + 2 * p) k s 0 cover_all = F.get_conv_outsize h k s p cover_all.
Proof.
  unfold F.get_conv_outsize.
  replace (Z.of_nat (h + 2 * p) + Z.of_nat 0 * 2)%Z
    with (Z.of_nat h + Z.of_nat p * 2)%Z by lia.
  reflexivity.
Qed.

Lemma get_conv_outsize_pool2 (h : nat) :
  Nat.even h = true -> F.get_conv_outsize h 2 2 0 true = Ok (h / 2).
Proof.
  intros Hh. apply Nat.even_spec in Hh as [k ->].
  rewrite Nat.mul_comm, Nat.div_mul by discriminate.
  unfold F.get_conv_outsize. simpl Nat.eqb. cbv iota.
  replace (Z.of_nat (k * 2) + Z.of_nat 0 * 2 - Z.of_nat 2 + (Z.of_nat 2 - 1))%Z
    with (1 + (Z.of_nat k - 1) * Z.of_nat 2)%Z by lia.
  rewrite Z.div_add by discriminate.
  change (1 / Z.of_nat 2)%Z with 0%Z.
  destruct (Z.ltb_spec (0 + (Z.of_nat k - 1) + 1) 0); [lia|].
  f_equal. lia.
Qed.

Section Stages.
Context {A : Type} {SA : Scalar A}.

(** Padding inside the convolution is padding before it. *)
Lemma convolution_2d_pad_first (x W b : ndarray A) (s p n c h w : nat) :
  shape x = [n; c; h; w] ->
  F.convolution_2d x W b s p =
  (xp <- Spec.pad_to (h + 2 * p) (w + 2 * p) x ;; F.convolution_2d xp W b s 0)%result.
Proof.
  intros Hx. unfold Spec.pad_to. rewrite Hx.
  replace (h <=? h + 2 * p) with true by (symmetry; apply Nat.leb_le; lia).
  replace (w <=? w + 2 * p) with true by (symmetry; apply Nat.leb_le; lia).
  replace ((h + 2 * p - h) / 2) with p
    by (replace (h + 2 * p - h) with (p * 2) by lia; now rewrite Nat.div_mul).
  replace ((w + 2 * p - w) / 2) with p
    by (replace (w + 2 * p - w) with (p * 2) by lia; now rewrite Nat.div_mul).
  cbn [andb rbind]. unfold F.convolution_2d. rewrite Hx. cbn [shape data].
  destruct (shape W) as [|oc [|c' [|kh [|kw [|]]]]]; try reflexivity.
  destruct (shape b) as [|ob [|]]; try reflexivity.
  destruct ((c =? c') && (ob =? oc)); [|reflexivity].
  rewrite !get_conv_outsize_pad.
  destruct (F.get_conv_outsize h kh s p false) as [oh|e]; [|reflexivity].
  destruct (F.get_conv_outsize w kw s p false) as [ow|e]; [|reflexivity].
  cbn [rbind]. do 2 f_equal.
  apply build4_ext. intros i o oy ox Hi Ho Hoy Hox. f_equal.
  apply fold_left_ext_in. intros acc [[ic ky] kx] Hin.
  apply In_window in Hin as (Hic & Hky & Hkx). do 2 f_equal.
  unfold F.padded at 2. rewrite !Nat.sub_0_r, !Nat.add_0_r.
  cbn [Nat.leb andb].
  destruct (Nat.ltb_spec (oy * s + ky) (h + 2 * p)) as [Hy|Hy];
    destruct (Nat.ltb_spec (ox * s + kx) (w + 2 * p)) as [Hw|Hw]; cbn [andb].
  - rewrite at4_build4 by assumption.
    unfold F.padded. now rewrite (Nat.add_comm p h), (Nat.add_comm p w).
  - unfold F.padded.
    replace (ox * s + kx <? w + p) with false by (symmetry; apply Nat.ltb_ge; lia).
    now rewrite !andb_false_r.
  - unfold F.padded.
    replace (oy * s + ky <? h + p) with false by (symmetry; apply Nat.ltb_ge; lia).
    now rewrite !andb_false_r.
  - unfold F.padded.
    replace (oy * s + ky <? h + p) with false by (symmetry; apply Nat.ltb_ge; lia).
    now rewrite !andb_false_r.
Qed.

(** A convolution with stride 1 and no padding is the textbook one. *)
Lemma convolution_2d_valid (l : L.Convolution2D A) (x : ndarray A)
    (cin cout k n h w : nat) :
  shape x = [n; cin; h; w] ->
  shape (L.conv_W l) = [cout; cin; k; k] ->
  shape (L.conv_b l) = [cout] ->
  k <= h -> k <= w ->
  F.convolution_2d x (L.conv_W l) (L.conv_b l) 1 0 = Spec.conv cin cout k l x.
Proof.
  intros Hx HW Hb Hh Hw. unfold F.convolution_2d, Spec.conv.
  rewrite Hx, HW, Hb, !Nat.eqb_refl.
  rewrite (proj2 (shape_eqb_eq [cout; cin; k; k] _) eq_refl).
  rewrite (proj2 (shape_eqb_eq [cout] _) eq_refl).
  rewrite (proj2 (Nat.leb_le k h) Hh), (proj2 (Nat.leb_le k w) Hw).
  rewrite !get_conv_outsize_valid by assumption.
  cbn [andb rbind]. do 2 f_equal.
  apply build4_ext. intros i o oy ox Hi Ho Hoy Hox. f_equal.
  apply fold_left_ext_in. intros acc [[ic ky] kx] Hin.
  apply In_window in Hin as (Hic & Hky & Hkx). do 2 f_equal.
  unfold F.padded. rewrite !Nat.mul_1_r, !Nat.sub_0_r, !Nat.add_0_r.
  cbn [Nat.leb andb].
  replace (oy + ky <? h) with true by (symmetry; apply Nat.ltb_lt; lia).
  replace (ox + kx <? w) with true by (symmetry; apply Nat.ltb_lt; lia).
  reflexivity.
Qed.

Lemma max2_same (a : A) : Spec.max2 a a = a.
Proof. unfold Spec.max2. now destruct (s_ltb a a). Qed.

(** On even sizes, pooling with a 2x2 kernel (stride 2 by default,
    cover_all on) takes the largest of each disjoint 2x2 block. *)
Lemma max_pooling_2d_blocks (x : ndarray A) (n c h w : nat) :
  shape x = [n; c; h; w] ->
  Nat.even h = true -> Nat.even w = true ->
  F.max_pooling_2d x 2 None 0 true = Spec.max_pool2 x.
Proof.
  intros Hx Hh Hw. unfold F.max_pooling_2d, Spec.max_pool2. rewrite Hx.
  rewrite !get_conv_outsize_pool2 by assumption.
  cbn [rbind]. do 2 f_equal.
  apply build4_ext. intros i ch oy ox Hi Hc Hoy Hox.
  apply Nat.even_spec in Hh as [h2 ->]. apply Nat.even_spec in Hw as [w2 ->].
  rewrite (Nat.mul_comm 2 h2), Nat.div_mul in Hoy by discriminate.
  rewrite (Nat.mul_comm 2 w2), Nat.div_mul in Hox by discriminate.
  rewrite !Nat.sub_0_r.
  rewrite (Nat.min_r (2 * h2)), (Nat.min_r (2 * w2)) by lia.
  unfold F.pool_max, F.cells.
  replace (oy * 2 + 2 - oy * 2) with 2 by lia.
  replace (ox * 2 + 2 - ox * 2) with 2 by lia.
  cbn [seq flat_map map app fold_left].
  fold (Spec.max2 (at4 c (2 * h2) (2 * w2) (data x) i ch (oy * 2) (ox * 2))
                  (at4 c (2 * h2) (2 * w2) (data x) i ch (oy * 2) (ox * 2))).
  rewrite max2_same.
  replace (oy * 2) with (2 * oy) by lia. replace (ox * 2) with (2 * ox) by lia.
  replace (S (2 * oy)) with (2 * oy + 1) by lia.
  replace (S (2 * ox)) with (2 * ox + 1) by lia.
  reflexivity.
Qed.

(** A linear link flattens its input itself. *)
Lemma linear_flatten (l : L.Linear A) (x : ndarray A)
    (cin cout n d : nat) (rest : list nat) :
  shape x = n :: d :: rest ->
  size (d :: rest) = cin ->
  shape (L.lin_W l) = [cout; cin] ->
  shape (L.lin_b l) = [cout] ->
  F.linear x (L.lin_W l) (L.lin_b l) =
  (m <- Spec.flatten x ;; Spec.linear cin cout l m)%result.
Proof.
  intros Hx Hsz HW Hb. unfold F.linear, Spec.flatten, Spec.linear.
  rewrite Hx, HW, Hb. cbn [rbind shape data length Nat.leb andb].
  rewrite Hsz, !Nat.eqb_refl.
  rewrite (proj2 (shape_eqb_eq [cout; cin] _) eq_refl).
  rewrite (proj2 (shape_eqb_eq [cout] _) eq_refl).
  reflexivity.
Qed.
End Stages.

Section StageResults.
Context {A : Type} {SA : Scalar A}.

Lemma pad_to_ok (x : ndarray A) (n c h w sh sw : nat) :
  shape x = [n; c; h; w] -> h <= sh -> w <= sw ->
  exists xp, Spec.pad_to sh sw x = Ok xp /\ shape xp = [n; c; sh; sw].
Proof.
  intros Hx Hh Hw. unfold Spec.pad_to. rewrite Hx.
  rewrite (proj2 (Nat.leb_le h sh) Hh), (proj2 (Nat.leb_le w sw) Hw).
  cbn [andb]. eexists. split; reflexivity.
Qed.

Lemma conv_ok (l : L.Convolution2D A) (x : ndarray A)
    (cin cout k n h w oh ow : nat) :
  shape x = [n; cin; h; w] ->
  shape (L.conv_W l) = [cout; cin; k; k] ->
  shape (L.conv_b l) = [cout] ->
  k <= h -> k <= w -> oh = h - k + 1 -> ow = w - k + 1 ->
  exists y, Spec.conv cin cout k l x = Ok y /\ shape y = [n; cout; oh; ow]
            /\ length (data y) = n * cout * oh * ow.
Proof.
  intros Hx HW Hb Hh Hw -> ->. unfold Spec.conv.
  rewrite Hx, HW, Hb, !Nat.eqb_refl.
  rewrite (proj2 (shape_eqb_eq [cout; cin; k; k] _) eq_refl).
  rewrite (proj2 (shape_eqb_eq [cout] _) eq_refl).
  rewrite (proj2 (Nat.leb_le k h) Hh), (proj2 (Nat.leb_le k w) Hw).
  cbn [andb]. eexists. split; [reflexivity|]. split; [reflexivity|].
  cbn [data]. apply build4_length.
Qed.

Lemma max_pool2_ok (x : ndarray A) (n c h w oh ow : nat) :
  shape x = [n; c; h; w] -> oh = h / 2 -> ow = w / 2 ->
  exists y, Spec.max_pool2 x = Ok y /\ shape y = [n; c; oh; ow]
            /\ length (data y) = n * c * oh * ow.
Proof.
  intros Hx -> ->. unfold Spec.max_pool2. rewrite Hx.
  eexists. split; [reflexivity|]. split; [reflexivity|].
  cbn [data]. apply build4_length.
Qed.

Lemma linear_ok (l : L.Linear A) (x : ndarray A) (cin cout n : nat) :
  shape x = [n; cin] ->
  shape (L.lin_W l) = [cout; cin] ->
  shape (L.lin_b l) = [cout] ->
  exists y, Spec.linear cin cout l x = Ok y /\ shape y = [n; cout]
            /\ length (data y) = n * cout.
Proof.
  intros Hx HW Hb. unfold Spec.linear. rewrite Hx, HW, Hb, Nat.eqb_refl.
  rewrite (proj2 (shape_eqb_eq [cout; cin] _) eq_refl).
  rewrite (proj2 (shape_eqb_eq [cout] _) eq_refl).
  cbn [andb]. eexists. split; [reflexivity|]. split; [reflexivity|].
  cbn [data]. apply build2_length.
Qed.

(** What membership in the class fixes, read off the constructor. *)
Lemma configured_inv (self : LeNet5 A) :
  configured self ->
  (shape (L.conv_W (conv1 self)) = [6; 1; 5; 5]
   /\ shape (L.conv_b (conv1 self)) = [6]
   /\ L.conv_stride (conv1 self) = 1 /\ L.conv_pad (conv1 self) = 2)
  /\ (shape (L.conv_W (conv2 self)) = [16; 6; 5; 5]
      /\ shape (L.conv_b (conv2 self)) = [16]
      /\ L.conv_stride (conv2 self) = 1 /\ L.conv_pad (conv2 self) = 0)
  /\ (shape (L.lin_W (fc1 self)) = [120; 400] /\ shape (L.lin_b (fc1 self)) = [120])
  /\ (shape (L.lin_W (fc2 self)) = [84; 120] /\ shape (L.lin_b (fc2 self)) = [84])
  /\ (shape (L.lin_W (fc3 self)) = [10; 84] /\ shape (L.lin_b (fc3 self)) = [10]).
Proof.
  unfold configured, topology, conv_config, linear_config, LeNet5_init,
    L.Convolution2D_init, L.Linear_init.
  cbn [conv1 conv2 fc1 fc2 fc3 L.conv_W L.conv_b L.conv_stride L.conv_pad
       L.lin_W L.lin_b shape].
  intros E. injection E as E1 E2 E3 E4 E5 E6 E7 E8 E9 E10 E11 E12 E13 E14.
  repeat split; assumption.
Qed.

Lemma LeNet5_init_configured (init : nat -> nat -> A) :
  configured (LeNet5_init init).
Proof. reflexivity. Qed.
End StageResults.

Section ForwardTrace.
Context {A : Type} {SA : Scalar A}.

Lemma linear_matrix (l : L.Linear A) (x : ndarray A) (cin cout n : nat) :
  shape x = [n; cin] ->
  shape (L.lin_W l) = [cout; cin] ->
  shape (L.lin_b l) = [cout] ->
  F.linear x (L.lin_W l) (L.lin_b l) = Spec.linear cin cout l x.
Proof.
  intros Hx HW Hb. unfold F.linear, Spec.linear.
  rewrite Hx, HW, Hb. cbn [length Nat.leb size fold_right andb].
  rewrite Nat.mul_1_r, !Nat.eqb_refl.
  rewrite (proj2 (shape_eqb_eq [cout; cin] _) eq_refl).
  rewrite (proj2 (shape_eqb_eq [cout] _) eq_refl).
  reflexivity.
Qed.

Lemma forward_trace (self : LeNet5 A) (x : ndarray A) (B : nat) :
  configured self -> shape x = [B; 1; 28; 28] ->
  exists x32 c1 h2 c2 h4 m f1 f2 y, Trace self x B x32 c1 h2 c2 h4 m f1 f2 y.
Proof.
  intros Hcfg Hx.
  destruct (configured_inv Hcfg) as
    ((W1 & b1 & s1 & p1) & (W2 & b2 & s2 & p2) & (W3 & b3) & (W4 & b4) & (W5 & b5)).
  (* conv1, padding fused *)
  destruct (pad_to_ok (sh := 32) (sw := 32) x Hx) as (x32 & Hpad & Hx32); [lia | lia |].
  destruct (conv_ok (conv1 self) x32 (k := 5) (oh := 28) (ow := 28) Hx32 W1 b1)
    as (c1 & Hc1 & Sc1 & _); [lia | lia | reflexivity | reflexivity |].
  assert (Cc1 : L.Convolution2D_call (conv1 self) x = Ok c1).
  { unfold L.Convolution2D_call. rewrite s1, p1.
    rewrite (convolution_2d_pad_first x _ _ 1 2 Hx).
    change (28 + 2 * 2) with 32. rewrite Hpad. cbn [rbind].
    rewrite (convolution_2d_valid (conv1 self) x32 (k := 5) Hx32 W1 b1) by lia.
    exact Hc1. }
  (* pool 1 *)
  assert (St1 : shape (F.tanh c1) = [B; 6; 28; 28]) by exact Sc1.
  destruct (max_pool2_ok (oh := 14) (ow := 14) (Spec.tanh c1) St1)
    as (h2 & Hh2 & Sh2 & _); [reflexivity | reflexivity |].
  assert (Ch2 : F.max_pooling_2d (F.tanh c1) 2 None 0 true = Ok h2).
  { rewrite (max_pooling_2d_blocks (F.tanh c1) St1) by reflexivity. exact Hh2. }
  (* conv2 *)
  destruct (conv_ok (conv2 self) h2 (k := 5) (oh := 10) (ow := 10) Sh2 W2 b2)
    as (c2 & Hc2 & Sc2 & _); [lia | lia | reflexivity | reflexivity |].
  assert (Cc2 : L.Convolution2D_call (conv2 self) h2 = Ok c2).
  { unfold L.Convolution2D_call. rewrite s2, p2.
    rewrite (convolution_2d_valid (conv2 self) h2 (k := 5) Sh2 W2 b2) by lia.
    exact Hc2. }
  (* pool 2 *)
  assert (St2 : shape (F.tanh c2) = [B; 16; 10; 10]) by exact Sc2.
  destruct (max_pool2_ok (oh := 5) (ow := 5) (Spec.tanh c2) St2)
    as (h4 & Hh4 & Sh4 & _); [reflexivity | reflexivity |].
  assert (Ch4 : F.max_pooling_2d (F.tanh c2) 2 None 0 true = Ok h4).
  { rewrite (max_pooling_2d_blocks (F.tanh c2) St2) by reflexivity. exact Hh4. }
  (* flatten and fc1 *)
  assert (Hm : Spec.flatten h4 = Ok (mk [B; 400] (data h4))).
  { unfold Spec.flatten. now rewrite Sh4. }
  destruct (linear_ok (fc1 self) (mk [B; 400] (data h4)) eq_refl W3 b3)
    as (f1 & Hf1 & Sf1 & _).
  assert (Cf1 : L.Linear_call (fc1 self) h4 = Ok f1).
  { unfold L.Linear_call.
    rewrite (linear_flatten (fc1 self) h4 (cin := 400) Sh4 eq_refl W3 b3).
    rewrite Hm. exact Hf1. }
  (* fc2 *)
  assert (St3 : shape (F.tanh f1) = [B; 120]) by exact Sf1.
  destruct (linear_ok (fc2 self) (Spec.tanh f1) St3 W4 b4) as (f2 & Hf2 & Sf2 & _).
  assert (Cf2 : L.Linear_call (fc2 self) (F.tanh f1) = Ok f2).
  { unfold L.Linear_call. rewrite (linear_matrix (fc2 self) _ St3 W4 b4). exact Hf2. }
  (* fc3 *)
  assert (St4 : shape (F.tanh f2) = [B; 84]) by exact Sf2.
  destruct (linear_ok (fc3 self) (Spec.tanh f2) St4 W5 b5) as (y & Hy & Sy & Ly).
  assert (Cy : L.Linear_call (fc3 self) (F.tanh f2) = Ok y).
  { unfold L.Linear_call. rewrite (linear_matrix (fc3 self) _ St4 W5 b5). exact Hy. }
  exists x32, c1, h2, c2, h4, (mk [B; 400] (data h4)), f1, f2, y.
  constructor; assumption || reflexivity.
Qed.
End ForwardTrace.

Section ChainFacts.
Context {A : Type} {SA : Scalar A}.

Lemma chain_cons {T : Type} (f : T -> result T) (fs : list (T -> result T)) (x : T) :
  chain (f :: fs) x = rbind (f x) (chain fs).
Proof.
  unfold chain. simpl. destruct (f x) as [v|e]; simpl; [reflexivity|].
  induction fs as [|g fs IH]; simpl; auto.
Qed.

(** A chain that raises does so in one of its stages, on the value the
    stages before it produced. *)
Lemma chain_raise {T : Type} (fs : list (T -> result T)) (x : T) (e : exn) :
  chain fs x = Raise e ->
  exists pre f post h,
    fs = pre ++ f :: post /\ chain pre x = Ok h /\ f h = Raise e.
Proof.
  revert x. induction fs as [|f fs IH]; intros x Hr.
  - discriminate.
  - rewrite chain_cons in Hr. destruct (f x) as [v|e'] eqn:Hf; simpl in Hr.
    + destruct (IH v Hr) as (pre & g & post & h & -> & Hpre & Hg).
      exists (f :: pre), g, post, h. repeat split; auto.
      rewrite chain_cons, Hf. exact Hpre.
    + injection Hr as ->. exists [], f, fs, x. repeat split; auto.
Qed.

Lemma LeNet5_call_chain (self : LeNet5 A) (x : ndarray A) :
  LeNet5_call x self = (chain (layers self) x, self).
Proof.
  unfold layers. rewrite !chain_cons. unfold chain. cbn [fold_left].
  unfold LeNet5_call, call_conv, call_linear, max_pooling_2d_2, mbind, attr, lift.
  destruct (L.Convolution2D_call (conv1 self) x) as [c1|]; cbn [rbind]; [|reflexivity].
  destruct (F.max_pooling_2d (F.tanh c1) 2 None 0 true) as [h2|]; cbn [rbind]; [|reflexivity].
  destruct (L.Convolution2D_call (conv2 self) h2) as [c2|]; cbn [rbind]; [|reflexivity].
  destruct (F.max_pooling_2d (F.tanh c2) 2 None 0 true) as [h4|]; cbn [rbind]; [|reflexivity].
  destruct (L.Linear_call (fc1 self) h4) as [f1|]; cbn [rbind]; [|reflexivity].
  destruct (L.Linear_call (fc2 self) (F.tanh f1)) as [f2|]; cbn [rbind]; [|reflexivity].
  now destruct (L.Linear_call (fc3 self) (F.tanh f2)).
Qed.

Lemma forward_of_trace (self : LeNet5 A) (x : ndarray A) (B : nat)
    (x32 c1 h2 c2 h4 m f1 f2 y : ndarray A) :
  Trace self x B x32 c1 h2 c2 h4 m f1 f2 y ->
  forward self x = Ok y /\ Spec.pipeline self x = Ok y
  /\ LeNet5_call x self = (Ok y, self)
  /\ activations x self =
     (Ok [F.tanh c1; h2; F.tanh c2; h4; F.tanh f1; F.tanh f2], self).
Proof.
  intros T.
  assert (E : LeNet5_call x self = (Ok y, self)).
  { unfold LeNet5_call, call_conv, call_linear, max_pooling_2d_2, mbind, attr, lift.
    now rewrite (tr_conv1 T), (tr_pool1 T), (tr_conv2 T), (tr_pool2 T),
      (tr_fc1 T), (tr_fc2 T), (tr_fc3 T). }
  split; [unfold forward; now rewrite E|]. split; [|split; [exact E|]].
  - unfold Spec.pipeline. rewrite (tr_pad T). cbn [rbind].
    rewrite (tr_conv1_spec T). cbn [rbind].
    rewrite (tr_pool1_spec T). cbn [rbind].
    rewrite (tr_conv2_spec T). cbn [rbind].
    rewrite (tr_pool2_spec T). cbn [rbind].
    rewrite (tr_flatten T). cbn [rbind].
    rewrite (tr_fc1_spec T). cbn [rbind].
    rewrite (tr_fc2_spec T). cbn [rbind].
    exact (tr_fc3_spec T).
  - unfold activations, call_conv, call_linear, max_pooling_2d_2, mbind, attr, lift, mret.
    now rewrite (tr_conv1 T), (tr_pool1 T), (tr_conv2 T), (tr_pool2 T),
      (tr_fc1 T), (tr_fc2 T).
Qed.
End ChainFacts.


(** ** Iterators *)

Section IteratorFacts.
Context {T : Type}.
Variable rng : list nat -> list nat.
Hypothesis rng_permutes : forall l, Permutation (rng l) l.

Lemma In_slice {X : Type} (l : list X) (i j : nat) (v : X) :
  In v (iterators.slice l i j) -> In v l.
Proof.
  unfold iterators.slice. intros Hv.
  rewrite <- (firstn_skipn i l). apply in_or_app. right.
  rewrite <- (firstn_skipn (j - i) (skipn i l)). apply in_or_app. now left.
Qed.

Lemma slice_length {X : Type} (l : list X) (i j : nat) :
  length (iterators.slice l i j) = Nat.min (j - i) (length l - i).
Proof. unfold iterators.slice. now rewrite length_firstn, length_skipn. Qed.

Lemma gather_ok (ds : list T) (indices : list nat) :
  Forall (fun k => k < length ds) indices ->
  exists vs, iterators.gather ds indices = Ok vs /\ length vs = length indices.
Proof.
  induction 1 as [|k rest Hk _ IH]; simpl.
  - now exists [].
  - destruct (nth_error ds k) as [v|] eqn:E.
    + destruct IH as (vs & -> & Hl). exists (v :: vs). simpl. auto.
    + apply nth_error_None in E. lia.
Qed.


Lemma samples_shuffled (train : list T) (o : list nat) (i j : nat) :
  Permutation o (seq 0 (length train)) ->
  exists vs, iterators.samples train (Some o) i j = Ok vs
             /\ length vs = Nat.min (j - i) (length train - i).
Proof.
  intros Hp. unfold iterators.samples.
  destruct (@gather_ok train (iterators.slice o i j)) as (vs & Hvs & Hl).
  - apply Forall_forall. intros k Hk. apply In_slice in Hk.
    apply (Permutation_in _ Hp) in Hk. apply in_seq in Hk. lia.
  - exists vs. split; [exact Hvs|].
    rewrite Hl, slice_length, (Permutation_length Hp), length_seq. reflexivity.
Qed.

Lemma train_iter_state (train : list T) :
  batchsize <= length train -> training_state train (train_iter rng train).
Proof.
  intros Hn. unfold training_state, train_iter, iterators.SerialIterator_init.
  cbn [iterators.dataset iterators.batch_size iterators.repeating
       iterators.order iterators.current_position].
  repeat split; auto.
  - eexists. split; [reflexivity | apply rng_permutes].
  - unfold batchsize in Hn. lia.
Qed.

Lemma next_training (train : list T) (it : iterators.SerialIterator) :
  batchsize <= length train ->
  training_state train it ->
  exists batch it',
    iterators.next rng it = Ok (batch, it')
    /\ length batch = batchsize
    /\ training_state train it'.
Proof.
  intros Hn (Hd & Hb & Hr & (o & Ho & Hp) & Hpos).
  unfold iterators.next. rewrite Hr, Hd, Hb, Ho. cbn [negb andb].
  set (i := iterators.current_position it) in *.
  destruct (samples_shuffled train i (i + batchsize) Hp) as (vs & -> & Hvs).
  cbn [rbind]. unfold batchsize in *.
  destruct (Nat.leb_spec (length train) (i + 128)) as [Hend|Hend].
  - cbn [option_map].
    assert (Hp' : Permutation (rng o) (seq 0 (length train)))
      by (eapply Permutation_trans; [apply rng_permutes | exact Hp]).
    destruct (Nat.ltb_spec 0 (i + 128 - length train)) as [Hrest|Hrest].
    + destruct (samples_shuffled train 0 (i + 128 - length train) Hp')
        as (ws & -> & Hws).
      cbn [rbind]. eexists _, _. split; [reflexivity|]. split.
      * rewrite length_app, Hvs, Hws. lia.
      * unfold training_state.
        cbn [iterators.dataset iterators.batch_size iterators.repeating
             iterators.order iterators.current_position].
        repeat split; auto; try lia; eauto.
    + cbn [rbind]. eexists _, _. split; [reflexivity|]. split.
      * rewrite length_app, Hvs. simpl. lia.
      * unfold training_state.
        cbn [iterators.dataset iterators.batch_size iterators.repeating
             iterators.order iterators.current_position].
        repeat split; auto; try lia; eauto.
  - eexists _, _. split; [reflexivity|]. split.
    + rewrite Hvs. lia.
    + unfold training_state.
      cbn [iterators.dataset iterators.batch_size iterators.repeating
           iterators.order iterators.current_position].
      repeat split; auto; try lia; eauto.
Qed.

Lemma take_training (train : list T) (k : nat) (it : iterators.SerialIterator) :
  batchsize <= length train ->
  training_state train it ->
  exists batches it',
    iterators.take rng k it = Ok (batches, it')
    /\ length batches = k
    /\ Forall (fun batch => length batch = batchsize) batches
    /\ training_state train it'.
Proof.
  intros Hn. revert it. induction k as [|k IH]; intros it Hit; simpl.
  - exists [], it. auto.
  - destruct (next_training Hn Hit) as (b & it1 & -> & Hb & Hit1).
    cbn [rbind snd fst].
    destruct (IH it1 Hit1) as (bs & it2 & -> & Hl & Hall & Hit2).
    cbn [rbind snd fst]. exists (b :: bs), it2.
    split; [reflexivity|]. split; [simpl; congruence|].
    split; [constructor; assumption | assumption].
Qed.
End IteratorFacts.

Section EvaluationFacts.
Context {T : Type}.
Variable rng : list nat -> list nat.


Lemma drain_testing (test : list T) (fuel : nat) :
  forall (it : iterators.SerialIterator) (i : nat),
    testing_state test i it ->
    length test - i + 2 <= fuel ->
    exists batches,
      iterators.drain rng fuel it = Some (Ok batches)
      /\ concat batches = skipn i test
      /\ Forall (fun batch => length batch <= batchsize) batches.
Proof.
  induction fuel as [|fuel IH]; intros it i (Hd & Hb & Hr & Ho & Hp & He & Hi) Hf;
    [lia|].
  assert (Hlen : length (iterators.slice test i (i + batchsize)) <= batchsize)
    by (rewrite slice_length; lia).
  cbn [iterators.drain]. unfold iterators.next at 1.
  rewrite Hr, He, Hd, Hb, Ho, Hp. cbn [negb andb Nat.ltb Nat.leb].
  unfold iterators.samples. cbn [rbind].
  destruct (Nat.leb_spec (length test) (i + batchsize)) as [Hend|Hend].
  - destruct fuel as [|fuel]; [lia|].
    cbn [iterators.drain]. unfold iterators.next.
    cbn [iterators.repeating iterators.epoch negb andb Nat.ltb Nat.leb].
    exists [iterators.slice test i (i + batchsize)].
    split; [reflexivity|]. split.
    + cbn [concat]. rewrite app_nil_r. unfold iterators.slice.
      apply firstn_all2. rewrite length_skipn. lia.
    + constructor; [exact Hlen | constructor].
  - match goal with
    | |- context [iterators.drain rng fuel ?it'] =>
        destruct (IH it' (i + batchsize)) as (bs & -> & Hc & Hall)
    end.
    + unfold testing_state.
      cbn [iterators.dataset iterators.batch_size iterators.repeating
           iterators.order iterators.current_position iterators.epoch].
      repeat split; auto. lia.
    + unfold batchsize in *. lia.
    + exists (iterators.slice test i (i + batchsize) :: bs).
      split; [reflexivity|]. split.
      * cbn [concat]. rewrite Hc. unfold iterators.slice.
        replace (i + batchsize - i) with batchsize by lia.
        rewrite (Nat.add_comm i batchsize), <- skipn_skipn.
        apply firstn_skipn.
      * constructor; assumption.
Qed.

Lemma test_iter_state (test : list T) :
  testing_state test 0 (test_iter rng test).
Proof.
  unfold testing_state, test_iter, iterators.SerialIterator_init.
  cbn [iterators.dataset iterators.batch_size iterators.repeating
       iterators.order iterators.current_position iterators.epoch].
  repeat split; auto. lia.
Qed.
End EvaluationFacts.

(** ** The trainer's view of the training iterator *)

Section UpdaterFacts.
Context {T : Type}.
Variable rng : list nat -> list nat.


Lemma update_tracks_next (it it' : iterators.SerialIterator)
    (u : training.Updater) (batch : list T) :
  iterators.repeating it = true ->
  tracks it u ->
  iterators.next rng it = Ok (batch, it') ->
  tracks it' (training.update u).
Proof.
  intros Hr (Hn & Hb & Hp & He & Hf). unfold iterators.next, training.update.
  rewrite Hr, Hn, Hb, Hp. cbn [negb andb].
  destruct (iterators.samples _ _ _ _) as [vs|]; cbn [rbind]; [|discriminate].
  destruct (Nat.leb_spec (length (iterators.dataset it))
              (iterators.current_position it + iterators.batch_size it)) as [Hend|Hend].
  - destruct (if 0 <? _ then _ else _) as [ws|]; cbn [rbind]; [|discriminate].
    intros E. injection E as _ <-.
    destruct (N.leb_spec (N.of_nat (length (iterators.dataset it)))
                (N.of_nat (iterators.current_position it)
                 + N.of_nat (iterators.batch_size it))) as [H1|H1]; [|lia].
    unfold tracks.
    cbn [training.train_size training.batch_size training.current_position
         training.epoch training.is_new_epoch iterators.dataset
         iterators.batch_size iterators.current_position iterators.epoch
         iterators.is_new_epoch].
    repeat split; auto; lia.
  - intros E. injection E as _ <-.
    destruct (N.leb_spec (N.of_nat (length (iterators.dataset it)))
                (N.of_nat (iterators.current_position it)
                 + N.of_nat (iterators.batch_size it))) as [H1|H1]; [lia|].
    unfold tracks.
    cbn [training.train_size training.batch_size training.current_position
         training.epoch training.is_new_epoch iterators.dataset
         iterators.batch_size iterators.current_position iterators.epoch
         iterators.is_new_epoch].
    repeat split; auto; lia.
Qed.
End UpdaterFacts.

(** ** Values that stay where the activation puts them *)

Section Range.
Context {A : Type} {SA : Scalar A}.
Variable P : A -> Prop.
Hypothesis P_zero : P s_zero.
Hypothesis P_tanh : forall a, P (s_tanh a).

Lemma tanh_range (x : ndarray A) : Forall P (data (F.tanh x)).
Proof.
  apply Forall_forall. intros v Hv. cbn [F.tanh data] in Hv.
  apply in_map_iff in Hv as (a & <- & _). apply P_tanh.
Qed.

Lemma at4_range (C H W : nat) (d : list A) (n c y x : nat) :
  Forall P d -> P (at4 C H W d n c y x).
Proof.
  intros Hd. unfold at4.
  destruct (nth_in_or_default (offset4 C H W n c y x) d s_zero) as [Hin| ->].
  - revert Hin. apply Forall_forall. exact Hd.
  - exact P_zero.
Qed.

(** The pooled value is one of the values under the window. *)
Lemma max_pooling_2d_range (x y : ndarray A) (ksize : nat) (stride : option nat)
    (pad : nat) (cover_all : bool) :
  Forall P (data x) ->
  F.max_pooling_2d x ksize stride pad cover_all = Ok y ->
  Forall P (data y).
Proof.
  intros Hx. unfold F.max_pooling_2d.
  destruct (shape x) as [|n [|c [|h [|w [|]]]]]; try discriminate.
  destruct (F.get_conv_outsize h _ _ _ _) as [oh|]; cbn [rbind]; [|discriminate].
  destruct (F.get_conv_outsize w _ _ _ _) as [ow|]; cbn [rbind]; [|discriminate].
  intros E. injection E as <-. cbn [data].
  apply Forall_forall. intros v Hv.
  apply In_build4 in Hv as (i & ch & oy & ox & _ & _ & _ & _ & ->).
  unfold F.pool_max. apply fold_left_invariant.
  - now apply at4_range.
  - intros acc [y' x'] Hacc _. cbv zeta.
    destruct (s_ltb acc _); [now apply at4_range | exact Hacc].
Qed.

(** Every value of [h] in a forward pass comes out of a tanh or out of a
    pooling of tanh outputs. *)
Lemma activations_range (self : LeNet5 A) (x : ndarray A) (hs : list (ndarray A)) :
  fst (activations x self) = Ok hs ->
  Forall (fun h => Forall P (data h)) hs.
Proof.
  unfold activations, call_conv, call_linear, max_pooling_2d_2, mbind, attr, lift, mret.
  destruct (L.Convolution2D_call (conv1 self) x) as [c1|]; [|discriminate].
  destruct (F.max_pooling_2d (F.tanh c1) 2 None 0 true) as [h2|] eqn:E2; [|discriminate].
  destruct (L.Convolution2D_call (conv2 self) h2) as [c2|]; [|discriminate].
  destruct (F.max_pooling_2d (F.tanh c2) 2 None 0 true) as [h4|] eqn:E4; [|discriminate].
  destruct (L.Linear_call (fc1 self) h4) as [f1|]; [|discriminate].
  destruct (L.Linear_call (fc2 self) (F.tanh f1)) as [f2|]; [|discriminate].
  cbn [fst]. intros E. injection E as <-.
  repeat constructor; try apply tanh_range.
  - eapply max_pooling_2d_range; [apply tanh_range | exact E2].
  - eapply max_pooling_2d_range; [apply tanh_range | exact E4].
Qed.
End Range.

Lemma tanh_within (x : R) : within (-1) 1 (Rtrigo_def.tanh x).
Proof.
  unfold within, Rtrigo_def.tanh, sinh, cosh.
  pose proof (exp_pos x) as Hp. pose proof (exp_pos (- x)) as Hn.
  assert (Hc : (0 < (exp x + exp (- x)) / 2)%R) by lra.
  split.
  - apply Rmult_le_reg_r with ((exp x + exp (- x)) / 2)%R; [exact Hc|].
    unfold Rdiv at 2. rewrite Rmult_assoc, Rinv_l by lra. lra.
  - apply Rmult_le_reg_r with ((exp x + exp (- x)) / 2)%R; [exact Hc|].
    unfold Rdiv at 1. rewrite Rmult_assoc, Rinv_l by lra. lra.
Qed.

(** ** Which input sizes the layers accept *)

Section Accepted.
Context {A : Type} {SA : Scalar A}.

Lemma convolution_2d_shape (x W b : ndarray A) (s p n c h w oc kh kw oh ow : nat) :
  shape x = [n; c; h; w] ->
  shape W = [oc; c; kh; kw] ->
  shape b = [oc] ->
  F.get_conv_outsize h kh s p false = Ok oh ->
  F.get_conv_outsize w kw s p false = Ok ow ->
  exists y, F.convolution_2d x W b s p = Ok y /\ shape y = [n; oc; oh; ow].
Proof.
  intros Hx HW Hb Hh Hw. unfold F.convolution_2d.
  rewrite Hx, HW, Hb, !Nat.eqb_refl, Hh, Hw. cbn [andb rbind].
  eexists. split; reflexivity.
Qed.

Lemma convolution_2d_channels (x W b : ndarray A) (s p n c h w oc c' kh kw : nat) :
  shape x = [n; c; h; w] ->
  shape W = [oc; c'; kh; kw] ->
  c <> c' ->
  F.convolution_2d x W b s p = Raise (InvalidType "convolution_2d").
Proof.
  intros Hx HW Hc. unfold F.convolution_2d. rewrite Hx, HW.
  rewrite (proj2 (Nat.eqb_neq c c') Hc). cbn [andb].
  destruct (shape b) as [|ob [|]]; reflexivity.
Qed.

Lemma max_pooling_2d_shape (x : ndarray A) (n c h w oh ow : nat) :
  shape x = [n; c; h; w] ->
  F.get_conv_outsize h 2 2 0 true = Ok oh ->
  F.get_conv_outsize w 2 2 0 true = Ok ow ->
  exists y, F.max_pooling_2d x 2 None 0 true = Ok y /\ shape y = [n; c; oh; ow].
Proof.
  intros Hx Hh Hw. unfold F.max_pooling_2d. rewrite Hx, Hh, Hw. cbn [rbind].
  eexists. split; reflexivity.
Qed.

Lemma linear_shape (x W b : ndarray A) (n d cin cout : nat) (rest : list nat) :
  shape x = n :: d :: rest ->
  size (d :: rest) = cin ->
  shape W = [cout; cin] ->
  shape b = [cout] ->
  exists y, F.linear x W b = Ok y /\ shape y = [n; cout].
Proof.
  intros Hx Hs HW Hb. unfold F.linear. rewrite Hx, HW, Hb, Hs, !Nat.eqb_refl.
  cbn [length Nat.leb andb]. eexists. split; reflexivity.
Qed.

Lemma linear_features (x W b : ndarray A) (n cin cout : nat) (rest : list nat) :
  shape x = n :: rest ->
  shape W = [cout; cin] ->
  size rest <> cin ->
  F.linear x W b = Raise (InvalidType "linear").
Proof.
  intros Hx HW Hs. unfold F.linear. rewrite Hx, HW.
  rewrite (proj2 (Nat.eqb_neq _ _) Hs), andb_false_r. cbn [andb].
  destruct (shape b) as [|ob [|]]; reflexivity.
Qed.

(** An image side from 25 to 28 leaves 5 after the two convolutions and
    the two poolings. *)
Lemma sides_25_to_28 (h : nat) :
  25 <= h <= 28 ->
  exists a b,
    F.get_conv_outsize h 5 1 2 false = Ok h
    /\ F.get_conv_outsize h 2 2 0 true = Ok a
    /\ F.get_conv_outsize a 5 1 0 false = Ok b
    /\ F.get_conv_outsize b 2 2 0 true = Ok 5.
Proof.
  intros Hh.
  assert (E : h = 25 \/ h = 26 \/ h = 27 \/ h = 28) by lia.
  destruct E as [-> | [-> | [-> | ->]]]; eexists _, _; repeat split; reflexivity.
Qed.

Lemma forward_accepts (self : LeNet5 A) (x : ndarray A) (B h w : nat) :
  configured self ->
  shape x = [B; 1; h; w] ->
  25 <= h <= 28 -> 25 <= w <= 28 ->
  exists y, forward self x = Ok y /\ shape y = [B; 10].
Proof.
  intros Hcfg Hx Hh Hw.
  destruct (configured_inv Hcfg) as
    ((W1 & b1 & s1 & p1) & (W2 & b2 & s2 & p2) & (W3 & b3) & (W4 & b4) & (W5 & b5)).
  destruct (sides_25_to_28 Hh) as (ha & hb & Hh1 & Hh2 & Hh3 & Hh4).
  destruct (sides_25_to_28 Hw) as (wa & wb & Hw1 & Hw2 & Hw3 & Hw4).
  destruct (convolution_2d_shape x _ _ 1 2 Hx W1 b1 Hh1 Hw1) as (c1 & Hc1 & Sc1).
  destruct (max_pooling_2d_shape (F.tanh c1) Sc1 Hh2 Hw2) as (h2 & Hh2' & Sh2).
  destruct (convolution_2d_shape h2 _ _ 1 0 Sh2 W2 b2 Hh3 Hw3) as (c2 & Hc2 & Sc2).
  destruct (max_pooling_2d_shape (F.tanh c2) Sc2 Hh4 Hw4) as (h4 & Hh4' & Sh4).
  destruct (linear_shape h4 _ _ Sh4 eq_refl W3 b3) as (f1 & Hf1 & Sf1).
  destruct (linear_shape (F.tanh f1) _ _ Sf1 eq_refl W4 b4) as (f2 & Hf2 & Sf2).
  destruct (linear_shape (F.tanh f2) _ _ Sf2 eq_refl W5 b5) as (y & Hy & Sy).
  exists y. split; [|exact Sy].
  unfold forward, LeNet5_call, call_conv, call_linear, max_pooling_2d_2,
    mbind, attr, lift, L.Convolution2D_call, L.Linear_call.
  now rewrite s1, p1, Hc1, Hh2', s2, p2, Hc2, Hh4', Hf1, Hf2, Hy.
Qed.

Lemma forward_rejects_channels (self : LeNet5 A) (x : ndarray A) (n c h w : nat) :
  configured self ->
  shape x = [n; c; h; w] ->
  c <> 1 ->
  forward self x = Raise (InvalidType "convolution_2d").
Proof.
  intros Hcfg Hx Hc.
  destruct (configured_inv Hcfg) as ((W1 & _) & _).
  unfold forward, LeNet5_call, call_conv, mbind, attr, lift, L.Convolution2D_call.
  now rewrite (convolution_2d_channels x _ _ _ _ Hx W1 Hc).
Qed.

(** A batch already padded to 32x32 reaches fc1 with 16 * 6 * 6 features
    and is rejected there. *)
Lemma forward_rejects_32x32 (self : LeNet5 A) (x : ndarray A) (B : nat) :
  configured self ->
  shape x = [B; 1; 32; 32] ->
  forward self x = Raise (InvalidType "linear").
Proof.
  intros Hcfg Hx.
  destruct (configured_inv Hcfg) as
    ((W1 & b1 & s1 & p1) & (W2 & b2 & s2 & p2) & (W3 & b3) & _).
  destruct (convolution_2d_shape x _ _ 1 2 (oh := 32) (ow := 32) Hx W1 b1)
    as (c1 & Hc1 & Sc1); [reflexivity | reflexivity |].
  destruct (max_pooling_2d_shape (F.tanh c1) (oh := 16) (ow := 16) Sc1)
    as (h2 & Hh2 & Sh2); [reflexivity | reflexivity |].
  destruct (convolution_2d_shape h2 _ _ 1 0 (oh := 12) (ow := 12) Sh2 W2 b2)
    as (c2 & Hc2 & Sc2); [reflexivity | reflexivity |].
  destruct (max_pooling_2d_shape (F.tanh c2) (oh := 6) (ow := 6) Sc2)
    as (h4 & Hh4 & Sh4); [reflexivity | reflexivity |].
  unfold forward, LeNet5_call, call_conv, call_linear, max_pooling_2d_2,
    mbind, attr, lift, L.Convolution2D_call, L.Linear_call.
  rewrite s1, p1, Hc1, Hh2, s2, p2, Hc2, Hh4.
  rewrite (@linear_features h4 _ (L.lin_b (fc1 self)) _ _ _ _ Sh4 W3); [reflexivity|].
  discriminate.
Qed.
End Accepted.

(** ** Output sizes for any input size *)

Lemma get_conv_outsize_same (h : nat) :
  F.get_conv_outsize h 5 1 2 false = Ok h.
Proof.
  unfold F.get_conv_outsize. simpl Nat.eqb. cbv iota.
  change (Z.of_nat 1) with 1%Z. rewrite Z.div_1_r.
  destruct (Z.ltb_spec (Z.of_nat h + Z.of_nat 2 * 2 - Z.of_nat 5 + 0 + 1) 0); [lia|].
  f_equal. lia.
Qed.

Lemma get_conv_outsize_halve (h : nat) :
  F.get_conv_outsize h 2 2 0 true = Ok ((h + 1) / 2).
Proof.
  unfold F.get_conv_outsize. simpl Nat.eqb. cbv iota.
  replace (Z.of_nat h + Z.of_nat 0 * 2 - Z.of_nat 2 + (Z.of_nat 2 - 1))%Z
    with (Z.of_nat (h + 1) + (-1) * Z.of_nat 2)%Z by lia.
  rewrite Z.div_add by discriminate.
  rewrite <- (Nat2Z.inj_div (h + 1) 2).
  destruct (Z.ltb_spec (Z.of_nat ((h + 1) / 2) + -1 + 1) 0); [lia|].
  f_equal. lia.
Qed.

Lemma get_conv_outsize_minus4 (a : nat) :
  4 <= a -> F.get_conv_outsize a 5 1 0 false = Ok (a - 4).
Proof.
  intros Ha. unfold F.get_conv_outsize. simpl Nat.eqb. cbv iota.
  change (Z.of_nat 1) with 1%Z. rewrite Z.div_1_r.
  destruct (Z.ltb_spec (Z.of_nat a + Z.of_nat 0 * 2 - Z.of_nat 5 + 0 + 1) 0); [lia|].
  f_equal. lia.
Qed.

Lemma get_conv_outsize_too_small (a : nat) :
  a < 4 ->
  F.get_conv_outsize a 5 1 0 false
  = Raise (ValueError "negative dimensions are not allowed").
Proof.
  intros Ha. unfold F.get_conv_outsize. simpl Nat.eqb. cbv iota.
  change (Z.of_nat 1) with 1%Z. rewrite Z.div_1_r.
  destruct (Z.ltb_spec (Z.of_nat a + Z.of_nat 0 * 2 - Z.of_nat 5 + 0 + 1) 0);
    [reflexivity | lia].
Qed.

(** ** Which image sizes reach fc1 with 400 features *)

Ltac halves e :=
  pose proof (Nat.div_mod_eq e 2);
  pose proof (Nat.mod_upper_bound e 2 (Nat.neq_succ_0 1)).

Lemma feature_side_None (h : nat) : feature_side h = None <-> h < 7.
Proof.
  unfold feature_side. halves (h + 1).
  destruct (Nat.leb_spec 4 ((h + 1) / 2)); split; intros E;
    try discriminate; try reflexivity; lia.
Qed.

Lemma feature_side_Some (h a : nat) :
  feature_side h = Some a ->
  7 <= h
  /\ (a = 1 <-> 9 <= h <= 12)
  /\ (a = 5 <-> 25 <= h <= 28)
  /\ (a = 25 <-> 105 <= h <= 108).
Proof.
  unfold feature_side. halves (h + 1). halves ((h + 1) / 2 - 4 + 1).
  destruct (Nat.leb_spec 4 ((h + 1) / 2)); [|discriminate].
  intros E.
  assert (Ea : ((h + 1) / 2 - 4 + 1) / 2 = a) by congruence.
  clear E. lia.
Qed.

Lemma twenty_five (a b : nat) :
  size [16; a; b] = 400 <->
  (a = 1 /\ b = 25) \/ (a = 5 /\ b = 5) \/ (a = 25 /\ b = 1).
Proof.
  cbn [size fold_right]. split.
  - intros H. assert (E : a * b = 25) by lia.
    assert (a <= 25) by (destruct b as [|b]; [lia | nia]).
    do 26 (destruct a as [|a]; [lia|]). lia.
  - intros [[-> ->] | [[-> ->] | [-> ->]]]; reflexivity.
Qed.

Lemma accepted_size_features (h w : nat) :
  accepted_size h w <->
  exists a b, feature_side h = Some a /\ feature_side w = Some b
              /\ size [16; a; b] = 400.
Proof.
  unfold accepted_size. split.
  - intros Hacc.
    destruct (feature_side h) as [a|] eqn:Ea;
      [|apply feature_side_None in Ea; lia].
    destruct (feature_side w) as [b|] eqn:Eb;
      [|apply feature_side_None in Eb; lia].
    exists a, b. split; [reflexivity|]. split; [reflexivity|].
    apply twenty_five.
    destruct (feature_side_Some h Ea) as (_ & Ha1 & Ha5 & Ha25).
    destruct (feature_side_Some w Eb) as (_ & Hb1 & Hb5 & Hb25).
    destruct Hacc as [[Hh Hw] | [[Hh Hw] | [Hh Hw]]].
    + right; left. split; [apply Ha5 | apply Hb5]; assumption.
    + left. split; [apply Ha1 | apply Hb25]; assumption.
    + right; right. split; [apply Ha25 | apply Hb1]; assumption.
  - intros (a & b & Ea & Eb & Hs). apply twenty_five in Hs.
    destruct (feature_side_Some h Ea) as (_ & Ha1 & Ha5 & Ha25).
    destruct (feature_side_Some w Eb) as (_ & Hb1 & Hb5 & Hb25).
    destruct Hs as [[Ha Hb] | [[Ha Hb] | [Ha Hb]]].
    + right; left. split; [apply Ha1 | apply Hb25]; assumption.
    + left. split; [apply Ha5 | apply Hb5]; assumption.
    + right; right. split; [apply Ha25 | apply Hb1]; assumption.
Qed.

Section BySize.
Context {A : Type} {SA : Scalar A}.

Lemma convolution_2d_too_small (x W b : ndarray A) (n c h w oc : nat) :
  shape x = [n; c; h; w] ->
  shape W = [oc; c; 5; 5] ->
  shape b = [oc] ->
  h < 4 \/ w < 4 ->
  F.convolution_2d x W b 1 0
  = Raise (ValueError "negative dimensions are not allowed").
Proof.
  intros Hx HW Hb Hs. unfold F.convolution_2d.
  rewrite Hx, HW, Hb, !Nat.eqb_refl. cbn [andb].
  destruct (Nat.lt_ge_cases h 4) as [Hh|Hh].
  - now rewrite (get_conv_outsize_too_small Hh).
  - rewrite (get_conv_outsize_minus4 Hh). cbn [rbind].
    rewrite get_conv_outsize_too_small by lia. reflexivity.
Qed.

(** What the forward pass does with one-channel images of any size. *)
Lemma forward_by_size (self : LeNet5 A) (x : ndarray A) (B h w : nat) :
  configured self ->
  shape x = [B; 1; h; w] ->
  match feature_side h, feature_side w with
  | Some a, Some b =>
      if size [16; a; b] =? 400
      then exists y, forward self x = Ok y /\ shape y = [B; 10]
      else forward self x = Raise (InvalidType "linear")
  | _, _ =>
      forward self x = Raise (ValueError "negative dimensions are not allowed")
  end.
Proof.
  intros Hcfg Hx.
  destruct (configured_inv Hcfg) as
    ((W1 & b1 & s1 & p1) & (W2 & b2 & s2 & p2) & (W3 & b3) & (W4 & b4) & (W5 & b5)).
  destruct (convolution_2d_shape x _ _ 1 2 Hx W1 b1
              (get_conv_outsize_same h) (get_conv_outsize_same w))
    as (c1 & Hc1 & Sc1).
  destruct (max_pooling_2d_shape (F.tanh c1) Sc1
              (get_conv_outsize_halve h) (get_conv_outsize_halve w))
    as (h2 & Hh2 & Sh2).
  assert (Hfw : forall r, 
    (h3 <- L.Convolution2D_call (conv2 self) h2 ;;
     h4 <- F.max_pooling_2d (F.tanh h3) 2 None 0 true ;;
     f1 <- L.Linear_call (fc1 self) h4 ;;
     f2 <- L.Linear_call (fc2 self) (F.tanh f1) ;;
     L.Linear_call (fc3 self) (F.tanh f2))%result = r ->
    forward self x = r).
  { intros r <-.
    unfold forward, LeNet5_call, call_conv, call_linear, max_pooling_2d_2,
      mbind, attr, lift.
    unfold L.Convolution2D_call at 1. rewrite s1, p1, Hc1, Hh2.
    destruct (L.Convolution2D_call (conv2 self) h2) as [c2|]; cbn [rbind fst];
      [|reflexivity].
    destruct (F.max_pooling_2d (F.tanh c2) 2 None 0 true) as [h4|]; cbn [rbind fst];
      [|reflexivity].
    destruct (L.Linear_call (fc1 self) h4) as [f1|]; cbn [rbind fst]; [|reflexivity].
    destruct (L.Linear_call (fc2 self) (F.tanh f1)) as [f2|]; cbn [rbind fst];
      [|reflexivity].
    now destruct (L.Linear_call (fc3 self) (F.tanh f2)). }
  unfold feature_side.
  destruct (Nat.leb_spec 4 ((h + 1) / 2)) as [Hh|Hh];
    [destruct (Nat.leb_spec 4 ((w + 1) / 2)) as [Hw|Hw]|].
  - destruct (convolution_2d_shape h2 _ _ 1 0 Sh2 W2 b2
                (get_conv_outsize_minus4 Hh) (get_conv_outsize_minus4 Hw))
      as (c2 & Hc2 & Sc2).
    destruct (max_pooling_2d_shape (F.tanh c2) Sc2
                (get_conv_outsize_halve _) (get_conv_outsize_halve _))
      as (h4 & Hh4 & Sh4).
    destruct (Nat.eqb_spec (size [16; ((h + 1) / 2 - 4 + 1) / 2;
                                  ((w + 1) / 2 - 4 + 1) / 2]) 400) as [E|E].
    + destruct (linear_shape h4 _ _ Sh4 E W3 b3) as (f1 & Hf1 & Sf1).
      destruct (linear_shape (F.tanh f1) _ _ Sf1 eq_refl W4 b4) as (f2 & Hf2 & Sf2).
      destruct (linear_shape (F.tanh f2) _ _ Sf2 eq_refl W5 b5) as (y & Hy & Sy).
      exists y. split; [|exact Sy]. apply Hfw.
      unfold L.Convolution2D_call, L.Linear_call.
      rewrite s2, p2, Hc2. cbn [rbind]. rewrite Hh4. cbn [rbind].
      rewrite Hf1. cbn [rbind]. rewrite Hf2. cbn [rbind]. exact Hy.
    + apply Hfw. unfold L.Convolution2D_call, L.Linear_call.
      rewrite s2, p2, Hc2. cbn [rbind]. rewrite Hh4. cbn [rbind].
      now rewrite (@linear_features _ _ h4 _ (L.lin_b (fc1 self)) _ _ _ _ Sh4 W3 E).
  - apply Hfw. unfold L.Convolution2D_call. rewrite s2, p2.
    now rewrite (convolution_2d_too_small h2 _ _ Sh2 W2 b2 (or_intror Hw)).
  - apply Hfw. unfold L.Convolution2D_call. rewrite s2, p2.
    now rewrite (convolution_2d_too_small h2 _ _ Sh2 W2 b2 (or_introl Hh)).
Qed.
End BySize.

(** ** Buffers of the stage outputs *)

Section Buffers.
Context {A : Type} {SA : Scalar A}.

Lemma conv_length (cin cout k : nat) (l : L.Convolution2D A) (x y : ndarray A) :
  Spec.conv cin cout k l x = Ok y -> length (data y) = size (shape y).
Proof.
  unfold Spec.conv.
  destruct (shape x) as [|n [|c [|h [|w [|]]]]]; try discriminate.
  destruct (_ && _); [|discriminate].
  intros E. injection E as <-. cbn [data shape size fold_right].
  rewrite build4_length. ring.
Qed.

Lemma max_pool2_length (x y : ndarray A) :
  Spec.max_pool2 x = Ok y -> length (data y) = size (shape y).
Proof.
  unfold Spec.max_pool2.
  destruct (shape x) as [|n [|c [|h [|w [|]]]]]; try discriminate.
  intros E. injection E as <-. cbn [data shape size fold_right].
  rewrite build4_length. ring.
Qed.

Lemma linear_length (cin cout : nat) (l : L.Linear A) (x y : ndarray A) :
  Spec.linear cin cout l x = Ok y -> length (data y) = size (shape y).
Proof.
  unfold Spec.linear.
  destruct (shape x) as [|n [|i [|]]]; try discriminate.
  destruct (_ && _); [|discriminate].
  intros E. injection E as <-. cbn [data shape size fold_right].
  rewrite build2_length. ring.
Qed.

Lemma tanh_length (x : ndarray A) :
  length (data x) = size (shape x) ->
  length (data (F.tanh x)) = size (shape (F.tanh x)).
Proof. intros H. cbn [F.tanh data shape]. now rewrite length_map. Qed.
End Buffers.

(** ** Every stage works sample by sample *)

Section SampleBySample.
Context {A : Type} {SA : Scalar A}.

Lemma offset4_bound (n C H W i c y x : nat) :
  i < n -> c < C -> y < H -> x < W -> offset4 C H W i c y x < n * C * H * W.
Proof.
  unfold offset4. intros Hi Hc Hy Hx.
  assert (H1 : (i + 1) * C <= n * C) by (apply Nat.mul_le_mono_r; lia).
  assert (H2 : (i * C + c + 1) * H <= n * C * H) by (apply Nat.mul_le_mono_r; lia).
  assert (H3 : ((i * C + c) * H + y + 1) * W <= n * C * H * W)
    by (apply Nat.mul_le_mono_r; lia).
  lia.
Qed.

Lemma at4_map (f : A -> A) (C H W : nat) (d : list A) (i c y x : nat) :
  offset4 C H W i c y x < length d ->
  at4 C H W (map f d) i c y x = f (at4 C H W d i c y x).
Proof.
  intros Hlt. unfold at4.
  rewrite nth_indep with (d' := f s_zero) by (now rewrite length_map).
  apply map_nth.
Qed.

Lemma at2_map (f : A -> A) (W : nat) (d : list A) (i x : nat) :
  i * W + x < length d ->
  at2 W (map f d) i x = f (at2 W d i x).
Proof.
  intros Hlt. unfold at2.
  rewrite nth_indep with (d' := f s_zero) by (now rewrite length_map).
  apply map_nth.
Qed.

Lemma pad_to_sample (x x' p p' : ndarray A) (n n' c h w sh sw i j : nat) :
  shape x = [n; c; h; w] -> shape x' = [n'; c; h; w] ->
  i < n -> j < n' ->
  Spec.pad_to sh sw x = Ok p -> Spec.pad_to sh sw x' = Ok p' ->
  same_sample4 c h w (data x) (data x') i j ->
  same_sample4 c sh sw (data p) (data p') i j.
Proof.
  intros Hx Hx' Hi Hj. unfold Spec.pad_to. rewrite Hx, Hx'.
  destruct (_ && _); [|discriminate].
  intros E E' Hs. injection E as <-. injection E' as <-. cbn [data].
  intros ch y xx Hch Hy Hxx. rewrite !at4_build4 by assumption.
  destruct (_ && _) eqn:Hin; [|reflexivity].
  apply andb_true_iff in Hin as [Hin H4]. apply andb_true_iff in Hin as [Hin H3].
  apply andb_true_iff in Hin as [H1 H2].
  apply Nat.leb_le in H1. apply Nat.ltb_lt in H2.
  apply Nat.leb_le in H3. apply Nat.ltb_lt in H4.
  apply Hs; lia.
Qed.

Lemma conv_sample (cin cout k : nat) (l : L.Convolution2D A)
    (x x' y y' : ndarray A) (n n' h w i j : nat) :
  shape x = [n; cin; h; w] -> shape x' = [n'; cin; h; w] ->
  i < n -> j < n' ->
  Spec.conv cin cout k l x = Ok y -> Spec.conv cin cout k l x' = Ok y' ->
  same_sample4 cin h w (data x) (data x') i j ->
  same_sample4 cout (h - k + 1) (w - k + 1) (data y) (data y') i j.
Proof.
  intros Hx Hx' Hi Hj. unfold Spec.conv. rewrite Hx, Hx'.
  destruct (_ && _) eqn:Hc; [|discriminate].
  apply andb_true_iff in Hc as [Hc _]. apply andb_true_iff in Hc as [Hc _].
  apply andb_true_iff in Hc as [Hc Hkw]. apply andb_true_iff in Hc as [_ Hkh].
  apply Nat.leb_le in Hkh. apply Nat.leb_le in Hkw.
  intros E E' Hs. injection E as <-. injection E' as <-. cbn [data].
  intros o oy ox Ho Hoy Hox. rewrite !at4_build4 by assumption.
  f_equal. apply fold_left_ext_in. intros acc [[ic ky] kx] Hin.
  apply In_window in Hin as (Hic & Hky & Hkx).
  do 2 f_equal. apply Hs; lia.
Qed.

Lemma tanh_sample4 (C H W n n' i j : nat) (d d' : list A) :
  length d = n * C * H * W -> length d' = n' * C * H * W ->
  i < n -> j < n' ->
  same_sample4 C H W d d' i j ->
  same_sample4 C H W (map s_tanh d) (map s_tanh d') i j.
Proof.
  intros Hd Hd' Hi Hj Hs c y x Hc Hy Hx.
  rewrite !at4_map by (rewrite ?Hd, ?Hd'; now apply offset4_bound).
  f_equal. now apply Hs.
Qed.

Lemma tanh_row (W n n' i j : nat) (d d' : list A) :
  length d = n * W -> length d' = n' * W ->
  i < n -> j < n' ->
  same_row W d d' i j ->
  same_row W (map s_tanh d) (map s_tanh d') i j.
Proof.
  intros Hd Hd' Hi Hj Hs x Hx.
  rewrite !at2_map by (rewrite ?Hd, ?Hd'; nia).
  f_equal. now apply Hs.
Qed.

Lemma max_pool2_sample (x x' y y' : ndarray A) (n n' c h w i j : nat) :
  shape x = [n; c; h; w] -> shape x' = [n'; c; h; w] ->
  i < n -> j < n' ->
  Spec.max_pool2 x = Ok y -> Spec.max_pool2 x' = Ok y' ->
  same_sample4 c h w (data x) (data x') i j ->
  same_sample4 c (h / 2) (w / 2) (data y) (data y') i j.
Proof.
  intros Hx Hx' Hi Hj. unfold Spec.max_pool2. rewrite Hx, Hx'.
  intros E E' Hs. injection E as <-. injection E' as <-. cbn [data].
  intros ch oy ox Hch Hoy Hox. rewrite !at4_build4 by assumption.
  halves h. halves w. cbv zeta.
  rewrite !Hs by lia. reflexivity.
Qed.

(** Reading a (16, 5, 5) feature map as a row of 400 values. *)
Lemma flatten_sample (d d' : list A) (i j : nat) :
  same_sample4 16 5 5 d d' i j -> same_row 400 d d' i j.
Proof.
  intros Hs k Hk. unfold at2.
  pose proof (Nat.div_mod_eq k 25) as E1.
  pose proof (Nat.mod_upper_bound k 25 (Nat.neq_succ_0 24)) as B1.
  pose proof (Nat.div_mod_eq (k mod 25) 5) as E2.
  pose proof (Nat.mod_upper_bound (k mod 25) 5 (Nat.neq_succ_0 4)) as B2.
  specialize (Hs (k / 25) ((k mod 25) / 5) ((k mod 25) mod 5)).
  unfold at4, offset4 in Hs.
  replace (((i * 16 + k / 25) * 5 + k mod 25 / 5) * 5 + (k mod 25) mod 5)
    with (i * 400 + k) in Hs by lia.
  replace (((j * 16 + k / 25) * 5 + k mod 25 / 5) * 5 + (k mod 25) mod 5)
    with (j * 400 + k) in Hs by lia.
  apply Hs; lia.
Qed.

Lemma linear_sample (cin cout : nat) (l : L.Linear A)
    (x x' y y' : ndarray A) (n n' i j : nat) :
  shape x = [n; cin] -> shape x' = [n'; cin] ->
  i < n -> j < n' ->
  Spec.linear cin cout l x = Ok y -> Spec.linear cin cout l x' = Ok y' ->
  same_row cin (data x) (data x') i j ->
  same_row cout (data y) (data y') i j.
Proof.
  intros Hx Hx' Hi Hj. unfold Spec.linear. rewrite Hx, Hx'.
  destruct (_ && _); [|discriminate].
  intros E E' Hs. injection E as <-. injection E' as <-. cbn [data].
  intros o Ho. rewrite !at2_build2 by assumption.
  f_equal. apply fold_left_ext_in. intros acc k Hin. apply in_seq in Hin.
  do 2 f_equal. apply Hs. lia.
Qed.
End SampleBySample.

(** ** Sums of products with factors in [-1, 1] *)

Lemma weighted_sum_bound (xs ws : nat -> R) (l : list nat) (a a' : R) :
  (forall j, In j l -> Rabs (xs j) <= 1)%R ->
  (Rabs a <= a')%R ->
  (Rabs (fold_left (fun acc j => acc + xs j * ws j) l a)
   <= fold_left (fun acc j => acc + Rabs (ws j)) l a')%R.
Proof.
  revert a a'. induction l as [|j l IH]; intros a a' Hx Ha; simpl; [exact Ha|].
  apply IH.
  - intros k Hk. apply Hx. now right.
  - eapply Rle_trans; [apply Rabs_triang|].
    apply Rplus_le_compat; [exact Ha|].
    rewrite Rabs_mult.
    rewrite <- (Rmult_1_l (Rabs (ws j))) at 2.
    apply Rmult_le_compat_r; [apply Rabs_pos | apply Hx; now left].
Qed.

Lemma tanh_entry_bound (W : nat) (d : list R) (i j : nat) :
  (Rabs (at2 W (map s_tanh d) i j) <= 1)%R.
Proof.
  unfold at2. apply Rabs_le.
  destruct (nth_in_or_default (i * W + j) (map s_tanh d) s_zero) as [Hin| ->].
  - apply in_map_iff in Hin as (v & <- & _). apply tanh_within.
  - simpl. lra.
Qed.

(** ** Inputs that are not four-dimensional *)

Lemma forward_rejects_dimensions {A : Type} {SA : Scalar A}
    (self : LeNet5 A) (x : ndarray A) :
  length (shape x) <> 4 ->
  forward self x = Raise (InvalidType "convolution_2d").
Proof.
  intros Hdim.
  unfold forward, LeNet5_call, call_conv, mbind, attr, lift,
    L.Convolution2D_call, F.convolution_2d.
  destruct (shape x) as [|n [|c [|h [|w [|]]]]]; try reflexivity.
  now contradiction Hdim.
Qed.

(** ** Gathering samples through a list of indices *)

Section Gather.
Context {T : Type}.

Lemma gather_cons_inv (ds : list T) (k : nat) (rest : list nat) (g : list T) :
  iterators.gather ds (k :: rest) = Ok g ->
  exists v vs, nth_error ds k = Some v
               /\ iterators.gather ds rest = Ok vs /\ g = v :: vs.
Proof.
  simpl. destruct (nth_error ds k) as [v|]; [|discriminate].
  destruct (iterators.gather ds rest) as [vs|]; simpl; [|discriminate].
  intros E. exists v, vs. repeat split. congruence.
Qed.

Lemma gather_cons (ds : list T) (k : nat) (rest : list nat) (v : T) (vs : list T) :
  nth_error ds k = Some v ->
  iterators.gather ds rest = Ok vs ->
  iterators.gather ds (k :: rest) = Ok (v :: vs).
Proof. intros Hk Hr. simpl. now rewrite Hk, Hr. Qed.

Lemma gather_whole (pre ds : list T) :
  iterators.gather (pre ++ ds) (seq (length pre) (length ds)) = Ok ds.
Proof.
  revert pre. induction ds as [|v ds IH]; intros pre; [reflexivity|].
  cbn [length seq]. apply gather_cons.
  - rewrite nth_error_app2 by lia. now rewrite Nat.sub_diag.
  - specialize (IH (pre ++ [v])).
    rewrite <- app_assoc, length_app in IH. cbn [length app] in IH.
    now rewrite Nat.add_1_r in IH.
Qed.

Lemma gather_permutation (ds : list T) (o o' : list nat) :
  Permutation o o' ->
  forall g, iterators.gather ds o = Ok g ->
  exists g', iterators.gather ds o' = Ok g' /\ Permutation g g'.
Proof.
  induction 1 as [|k l l' _ IH|k k' l|l l' l'' _ IH1 _ IH2]; intros g Hg.
  - exists g. split; [exact Hg | apply Permutation_refl].
  - apply gather_cons_inv in Hg as (v & vs & Hk & Hvs & ->).
    destruct (IH vs Hvs) as (vs' & Hvs' & Hp).
    exists (v :: vs'). split; [now apply gather_cons | now constructor].
  - apply gather_cons_inv in Hg as (v' & vs0 & Hk' & Hvs0 & ->).
    apply gather_cons_inv in Hvs0 as (v & vs & Hk & Hvs & ->).
    exists (v :: v' :: vs). split.
    + apply gather_cons; [exact Hk|]. now apply gather_cons.
    + apply perm_swap.
  - destruct (IH1 g Hg) as (g1 & Hg1 & Hp1).
    destruct (IH2 g1 Hg1) as (g2 & Hg2 & Hp2).
    exists g2. split; [exact Hg2 | eapply Permutation_trans; eassumption].
Qed.

Lemma gather_firstn (ds : list T) (o : list nat) (g : list T) (a : nat) :
  iterators.gather ds o = Ok g ->
  iterators.gather ds (firstn a o) = Ok (firstn a g).
Proof.
  revert g a. induction o as [|k o IH]; intros g a Hg.
  - injection Hg as <-. now rewrite !firstn_nil.
  - apply gather_cons_inv in Hg as (v & vs & Hk & Hvs & ->).
    destruct a as [|a]; [reflexivity|].
    cbn [firstn]. apply gather_cons; [exact Hk | now apply IH].
Qed.

Lemma gather_skipn (ds : list T) (o : list nat) (g : list T) (a : nat) :
  iterators.gather ds o = Ok g ->
  iterators.gather ds (skipn a o) = Ok (skipn a g).
Proof.
  revert g a. induction o as [|k o IH]; intros g a Hg.
  - injection Hg as <-. now rewrite !skipn_nil.
  - destruct a as [|a]; [exact Hg|].
    apply gather_cons_inv in Hg as (v & vs & Hk & Hvs & ->).
    cbn [skipn]. now apply IH.
Qed.

Lemma gather_slice (ds : list T) (o : list nat) (g : list T) (i j : nat) :
  iterators.gather ds o = Ok g ->
  iterators.gather ds (iterators.slice o i j) = Ok (iterators.slice g i j).
Proof.
  intros Hg. unfold iterators.slice. now apply gather_firstn, gather_skipn.
Qed.

Lemma firstn_add (X : Type) (a b : nat) (l : list X) :
  firstn (a + b) l = firstn a l ++ firstn b (skipn a l).
Proof.
  revert l. induction a as [|a IH]; intros l; [reflexivity|].
  destruct l as [|v l]; [now rewrite skipn_nil, !firstn_nil|].
  cbn [Nat.add firstn skipn app]. now rewrite IH.
Qed.
End Gather.

(** ** The training stream, pass after pass *)

Section Stream.
Context {T : Type}.
Variable rng : list nat -> list nat.
Hypothesis rng_permutes : forall l, Permutation (rng l) l.

Lemma slice_from_0 (X : Type) (l : list X) (j : nat) :
  iterators.slice l 0 j = firstn j l.
Proof. unfold iterators.slice. now rewrite Nat.sub_0_r, skipn_0. Qed.

Lemma slice_to_end (X : Type) (l : list X) (i j : nat) :
  length l <= j -> iterators.slice l i j = skipn i l.
Proof.
  intros Hj. unfold iterators.slice. apply firstn_all2.
  rewrite length_skipn. lia.
Qed.

Lemma train_iter_stream (train : list T) :
  batchsize <= length train ->
  exists pass, stream_state train (train_iter rng train) [] [] pass.
Proof.
  intros Hn.
  destruct (@gather_permutation T train (seq 0 (length train))
              (rng (seq 0 (length train)))
              (Permutation_sym (rng_permutes _)) train (gather_whole [] train))
    as (pass & Hg & Hp).
  exists pass. unfold stream_state, train_iter, iterators.SerialIterator_init.
  cbn [iterators.dataset iterators.batch_size iterators.repeating
       iterators.order iterators.current_position iterators.epoch].
  repeat split; auto.
  - eauto.
  - now apply Permutation_sym.
  - unfold batchsize in Hn. lia.
Qed.

Lemma next_stream (train : list T) (it : iterators.SerialIterator)
    (consumed : list T) (done : list (list T)) (pass : list T) :
  batchsize <= length train ->
  stream_state train it consumed done pass ->
  exists batch it' done' pass',
    iterators.next rng it = Ok (batch, it')
    /\ stream_state train it' (consumed ++ batch) done' pass'.
Proof.
  intros Hn (Hd & Hb & Hr & (o & Ho & Hg) & Hpp & Hdone & Hlen & Hpos & Hc).
  pose proof (Permutation_length Hpp) as Lp.
  unfold iterators.next. rewrite Hr, Hd, Hb, Ho. cbn [negb andb].
  set (i := iterators.current_position it) in *.
  unfold iterators.samples at 1. rewrite (@gather_slice T train o pass i (i + batchsize) Hg).
  cbn [rbind]. unfold batchsize in *.
  destruct (Nat.leb_spec (length train) (i + 128)) as [Hend|Hend].
  - cbn [option_map].
    destruct (@gather_permutation T train o (rng o)
                (Permutation_sym (rng_permutes o)) pass Hg) as (pass' & Hg' & Hp').
    assert (Hmore :
      (if 0 <? i + 128 - length train
       then iterators.samples train (Some (rng o)) 0 (i + 128 - length train)
       else Ok []) = Ok (firstn (i + 128 - length train) pass')).
    { destruct (Nat.ltb_spec 0 (i + 128 - length train)) as [Hrest|Hrest].
      - unfold iterators.samples.
        now rewrite (@gather_slice T train (rng o) pass' 0 (i + 128 - length train) Hg'),
          slice_from_0.
      - now replace (i + 128 - length train) with 0 by lia. }
    rewrite Hmore. cbn [rbind].
    eexists _, _, (done ++ [pass]), pass'. split; [reflexivity|].
    unfold stream_state.
    cbn [iterators.dataset iterators.batch_size iterators.repeating
         iterators.order iterators.current_position iterators.epoch].
    repeat split; auto.
    + eauto.
    + eapply Permutation_trans; [apply Permutation_sym; exact Hp' | exact Hpp].
    + apply Forall_app. split; [exact Hdone | now constructor].
    + rewrite length_app, Hlen. simpl. lia.
    + lia.
    + rewrite Hc, slice_to_end by lia.
      rewrite concat_app. cbn [concat]. rewrite app_nil_r.
      rewrite <- !app_assoc. f_equal.
      rewrite app_assoc. now rewrite firstn_skipn.
  - eexists _, _, done, pass. split; [reflexivity|].
    unfold stream_state.
    cbn [iterators.dataset iterators.batch_size iterators.repeating
         iterators.order iterators.current_position iterators.epoch].
    repeat split; auto.
    + eauto.
    + rewrite Hc, <- app_assoc. f_equal.
      unfold iterators.slice. replace (i + 128 - i) with 128 by lia.
      symmetry. apply firstn_add.
Qed.

Lemma take_stream (train : list T) (k : nat) :
  batchsize <= length train ->
  forall (it : iterators.SerialIterator) (consumed : list T)
         (done : list (list T)) (pass : list T),
    stream_state train it consumed done pass ->
    exists batches it' done' pass',
      iterators.take rng k it = Ok (batches, it')
      /\ stream_state train it' (consumed ++ concat batches) done' pass'.
Proof.
  intros Hn. induction k as [|k IH]; intros it consumed done pass Hs.
  - exists [], it, done, pass. split; [reflexivity|].
    cbn [concat]. now rewrite app_nil_r.
  - destruct (next_stream Hn Hs) as (b & it1 & done1 & pass1 & Hb & Hs1).
    destruct (IH it1 _ done1 pass1 Hs1) as (bs & it2 & done2 & pass2 & Hbs & Hs2).
    exists (b :: bs), it2, done2, pass2. split.
    + cbn [iterators.take]. rewrite Hb. cbn [rbind snd fst].
      rewrite Hbs. reflexivity.
    + cbn [concat]. now rewrite app_assoc.
Qed.
End Stream.

Lemma length_concat_passes {T : Type} (train : list T) (passes : list (list T)) :
  Forall (fun p => Permutation p train) passes ->
  length (concat passes) = length passes * length train.
Proof.
  induction 1 as [|p ps Hp _ IH]; [reflexivity|].
  cbn [concat length]. rewrite length_app, IH, (Permutation_length Hp). lia.
Qed.

(** ** The evaluation pass, slice by slice *)

Section EvaluationSlices.
Context {T : Type}.
Variable rng : list nat -> list nat.

Lemma drain_slices (test : list T) (fuel : nat) :
  forall (it : iterators.SerialIterator) (i : nat),
    testing_state test i it ->
    length test - i + 2 <= fuel ->
    exists batches,
      iterators.drain rng fuel it = Some (Ok batches)
      /\ length batches = 1 + (length test - i - 1) / 128
      /\ forall q, q < length batches ->
           nth q batches [] = iterators.slice test (i + 128 * q) (i + 128 * (q + 1)).
Proof.
  induction fuel as [|fuel IH]; intros it i (Hd & Hb & Hr & Ho & Hp & He & Hi) Hf;
    [lia|].
  cbn [iterators.drain]. unfold iterators.next at 1.
  rewrite Hr, He, Hd, Hb, Ho, Hp. cbn [negb andb Nat.ltb Nat.leb].
  unfold iterators.samples. cbn [rbind]. unfold batchsize in *.
  destruct (Nat.leb_spec (length test) (i + 128)) as [Hend|Hend].
  - destruct fuel as [|fuel]; [lia|].
    cbn [iterators.drain]. unfold iterators.next.
    cbn [iterators.repeating iterators.epoch negb andb Nat.ltb Nat.leb].
    exists [iterators.slice test i (i + 128)].
    split; [reflexivity|]. split.
    + cbn [length]. rewrite Nat.div_small by lia. reflexivity.
    + intros q Hq. cbn [length] in Hq.
      replace q with 0 by lia. cbn [nth].
      now rewrite Nat.mul_0_r, Nat.add_0_r, Nat.mul_1_r.
  - match goal with
    | |- context [iterators.drain rng fuel ?it'] =>
        destruct (IH it' (i + 128)) as (bs & -> & Hl & Hn)
    end.
    + unfold testing_state.
      cbn [iterators.dataset iterators.batch_size iterators.repeating
           iterators.order iterators.current_position iterators.epoch].
      repeat split; auto. lia.
    + lia.
    + exists (iterators.slice test i (i + 128) :: bs).
      split; [reflexivity|]. split.
      * cbn [length]. rewrite Hl. f_equal.
        replace (length test - i - 1)
          with (length test - (i + 128) - 1 + 1 * 128) by lia.
        rewrite Nat.div_add by discriminate. lia.
      * intros [|q] Hq.
        -- cbn [nth]. now rewrite Nat.mul_0_r, Nat.add_0_r, Nat.mul_1_r.
        -- cbn [nth]. cbn [length] in Hq. rewrite Hn by lia.
           f_equal; lia.
Qed.
End EvaluationSlices.

(** ** The snapshot and the end of the run *)

Lemma trainer_is_trainer_for :
  trainer = trainer_for (N.of_nat mnist_train_size) (N.of_nat batchsize) epoch.
Proof. reflexivity. Qed.

Section LastUpdate.
Import training.

Lemma events_of_dispatch (who : string) (u : Updater) (es : list Entry) :
  events_of who (dispatch u es)
  = dispatch u (filter (fun e => String.eqb (name (extension e)) who) es).
Proof.
  unfold events_of, dispatch. induction es as [|e es IH]; [reflexivity|].
  cbn [filter].
  destruct (fires (trigger e) u && fires (works_when (extension e)) u) eqn:Hf;
    destruct (String.eqb (name (extension e)) who) eqn:Hn;
    cbn [map filter source]; rewrite ?Hf, ?Hn; cbn [map]; now rewrite IH.
Qed.

Lemma events_of_app (who : string) (l l' : list Event) :
  events_of who (l ++ l') = events_of who l ++ events_of who l'.
Proof. apply filter_app. Qed.

Lemma events_of_rev (who : string) (l : list Event) :
  events_of who (rev l) = rev (events_of who l).
Proof. unfold events_of. apply filter_rev. Qed.

Lemma update_counts (u : Updater) : fires (Interval 1 Iteration) (update u) = true.
Proof.
  unfold update. cbn [fires].
  destruct (_ <=? _)%N; cbn [iteration];
    rewrite N.mod_1_r; cbn [N.eqb];
    rewrite andb_true_r; apply N.ltb_lt; lia.
Qed.

Lemma run_loop_snapshot (epochs : N) (fuel : nat) :
  forall (tr tr' : Trainer) (log log' : list Event),
    stop_trigger tr = Interval epochs Epoch ->
    filter (fun e => String.eqb (name (extension e)) "snapshot") (extensions tr)
    = [ {| extension := E.snapshot; trigger := Interval epochs Epoch |} ] ->
    snapshot_at_stop epochs tr log ->
    run_loop fuel tr log = Some (tr', log') ->
    fires (Interval epochs Epoch) (updater tr') = true
    /\ events_of "snapshot" log' = [event_at (updater tr') "snapshot"].
Proof.
  induction fuel as [|fuel IH]; intros tr tr' log log' Hst Hes Hs; cbn [run_loop];
    rewrite Hst.
  - destruct (fires (Interval epochs Epoch) (updater tr)) eqn:Hf; [|discriminate].
    intros E. injection E as <- <-.
    destruct Hs as [[Hc _] | [_ Hlog]]; [congruence | auto].
  - destruct (fires (Interval epochs Epoch) (updater tr)) eqn:Hf.
    + intros E. injection E as <- <-.
      destruct Hs as [[Hc _] | [_ Hlog]]; [congruence | auto].
    + destruct Hs as [[_ Hlog] | [Hc _]]; [|congruence].
      intros Hrun. apply IH in Hrun; cbn [stop_trigger extensions updater] in *;
        [exact Hrun | reflexivity | exact Hes |].
      unfold snapshot_at_stop. cbn [updater].
      rewrite events_of_app, events_of_rev, events_of_dispatch, Hes, Hlog.
      unfold dispatch. cbn [filter trigger extension E.snapshot works_when].
      rewrite update_counts, andb_true_r.
      destruct (fires (Interval epochs Epoch) (update (updater tr))) eqn:Hfu;
        [right | left]; split; reflexivity.
Qed.
End LastUpdate.

(** ** How long the run is, and what runs once per epoch *)

Section RunLength.
Import training.
Variables n bs epochs : N.
Hypothesis batch_fits : (1 <= bs <= n)%N.
Hypothesis some_epochs : (1 <= epochs)%N.

Lemma counting_init : counting n bs epochs (StandardUpdater n bs).
Proof.
  unfold counting, StandardUpdater.
  cbn [train_size batch_size current_position epoch is_new_epoch iteration].
  repeat split; try lia; try discriminate.
Qed.

Lemma counting_fires (u : Updater) :
  counting n bs epochs u ->
  fires (Interval epochs Epoch) u = true <-> epoch u = epochs.
Proof.
  intros (_ & _ & _ & _ & Hle & Hnew & Hlast). cbn [fires]. split.
  - intros H. apply andb_true_iff in H as [Hn Hm].
    apply N.eqb_eq in Hm. destruct (Hnew Hn) as [H1 _].
    destruct (N.eq_dec (epoch u) epochs) as [E|E]; [exact E|].
    rewrite N.mod_small in Hm by lia. lia.
  - intros E. rewrite (Hlast E), E, N.Div0.mod_same, N.eqb_refl. reflexivity.
Qed.

Lemma counting_update (u : Updater) :
  counting n bs epochs u ->
  (epoch u < epochs)%N ->
  counting n bs epochs (update u).
Proof.
  intros (Hn & Hb & Hp & Hacc & Hle & Hnew & Hlast) Hlt.
  unfold counting, update. rewrite Hn, Hb.
  destruct (N.leb_spec n (current_position u + bs));
    cbn [train_size batch_size current_position epoch is_new_epoch iteration];
    repeat split; try lia; try discriminate.
Qed.

Lemma run_loop_ends (fuel : nat) :
  forall (tr : Trainer) (log : list Event),
    counting n bs epochs (updater tr) ->
    stop_trigger tr = Interval epochs Epoch ->
    (epochs * n - iteration (updater tr) * bs <= N.of_nat fuel * bs)%N ->
    exists tr' log',
      run_loop fuel tr log = Some (tr', log')
      /\ counting n bs epochs (updater tr')
      /\ epoch (updater tr') = epochs.
Proof.
  induction fuel as [|fuel IH]; intros tr log Hc Hst Hf; cbn [run_loop];
    rewrite Hst;
    destruct (fires (Interval epochs Epoch) (updater tr)) eqn:Hfire.
  - exists tr, log. split; [reflexivity|]. split; [exact Hc|].
    now apply counting_fires.
  - exfalso.
    assert (Hne : epoch (updater tr) <> epochs).
    { intros E. apply counting_fires in E; [congruence | exact Hc]. }
    destruct Hc as (_ & _ & Hp & Hacc & Hle & _). nia.
  - exists tr, log. split; [reflexivity|]. split; [exact Hc|].
    now apply counting_fires.
  - assert (Hne : epoch (updater tr) <> epochs).
    { intros E. apply counting_fires in E; [congruence | exact Hc]. }
    assert (Hlt : (epoch (updater tr) < epochs)%N)
      by (destruct Hc as (_ & _ & _ & _ & Hle & _); lia).
    apply IH; cbn [updater stop_trigger].
    + now apply counting_update.
    + reflexivity.
    + assert (Hi : iteration (update (updater tr)) = N.succ (iteration (updater tr)))
        by (unfold update; now destruct (_ <=? _)%N).
      rewrite Hi. nia.
Qed.
End RunLength.

Section OncePerEpoch.
Import training.

Lemma epochs_upto_succ (e : N) :
  epochs_upto (N.succ e) = epochs_upto e ++ [N.succ e].
Proof.
  unfold epochs_upto.
  replace (N.to_nat (N.succ e)) with (S (N.to_nat e)) by lia.
  rewrite seq_S, map_app. cbn [map Nat.add].
  now replace (N.of_nat (S (N.to_nat e))) with (N.succ e) by lia.
Qed.

Lemma run_loop_once_per_epoch (who : string) (e : Entry) (fuel : nat) :
  (forall u, fires (trigger e) (update u)
             && fires (works_when (extension e)) (update u)
             = is_new_epoch (update u)) ->
  name (extension e) = who ->
  forall (tr tr' : Trainer) (log log' : list Event),
    filter (fun e' => String.eqb (name (extension e')) who) (extensions tr) = [e] ->
    map at_epoch (events_of who log) = rev (epochs_upto (epoch (updater tr))) ->
    run_loop fuel tr log = Some (tr', log') ->
    map at_epoch (events_of who log') = rev (epochs_upto (epoch (updater tr'))).
Proof.
  intros Hcond Hname.
  induction fuel as [|fuel IH]; intros tr tr' log log' Hes Hlog; cbn [run_loop].
  - destruct (fires _ _); [|discriminate].
    intros E. now injection E as <- <-.
  - destruct (fires _ _).
    + intros E. now injection E as <- <-.
    + apply IH; cbn [extensions updater]; [exact Hes|].
      rewrite events_of_app, events_of_rev, events_of_dispatch, Hes, map_app, Hlog.
      unfold dispatch. cbn [filter]. rewrite Hcond.
      unfold update.
      destruct (_ <=? _)%N; cbn [is_new_epoch epoch map rev app at_epoch].
      * rewrite epochs_upto_succ, rev_app_distr. reflexivity.
      * reflexivity.
Qed.

Lemma once_per_epoch_trigger (ext : Extension) (u : Updater) :
  works_when ext = Interval 1 Iteration ->
  fires (Interval 1 Epoch) (update u) && fires (works_when ext) (update u)
  = is_new_epoch (update u).
Proof.
  intros ->. rewrite update_counts, andb_true_r. cbn [fires].
  now rewrite N.mod_1_r, andb_true_r.
Qed.

Lemma once_per_epoch_report (ext : Extension) (u : Updater) :
  works_when ext = Interval 1 Epoch ->
  fires (Interval 1 Iteration) (update u) && fires (works_when ext) (update u)
  = is_new_epoch (update u).
Proof.
  intros ->. rewrite update_counts. cbn [fires andb].
  now rewrite N.mod_1_r, andb_true_r.
Qed.
End OncePerEpoch.

(** * Running the layers on small arrays *)

Example convolution_2d_3x3 :
  F.convolution_2d (mk [1; 1; 3; 3] [1; 2; 3; 4; 5; 6; 7; 8; 9]%Z)
    (mk [1; 1; 2; 2] [1; 0; 0; 1]%Z) (mk [1] [100]%Z) 1 0
  = Ok (mk [1; 1; 2; 2] [106; 108; 112; 114]%Z).
Proof. reflexivity. Qed.

Example convolution_2d_3x3_pad1 :
  F.convolution_2d (mk [1; 1; 3; 3] [1; 2; 3; 4; 5; 6; 7; 8; 9]%Z)
    (mk [1; 1; 2; 2] [1; 0; 0; 1]%Z) (mk [1] [100]%Z) 1 1
  = Ok (mk [1; 1; 4; 4]
          [101; 102; 103; 100; 104; 106; 108; 103;
           107; 112; 114; 106; 100; 107; 108; 109]%Z).
Proof. reflexivity. Qed.

Example convolution_2d_wrong_channels :
  F.convolution_2d (mk [1; 2; 3; 3] (List.repeat 0%Z 18))
    (mk [1; 1; 2; 2] [1; 0; 0; 1]%Z) (mk [1] [100]%Z) 1 0
  = Raise (InvalidType "convolution_2d").
Proof. reflexivity. Qed.

Example max_pooling_2d_4x4 :
  F.max_pooling_2d (mk [1; 1; 4; 4] (map Z.of_nat (seq 0 16))) 2 None 0 true
  = Ok (mk [1; 1; 2; 2] [5; 7; 13; 15]%Z).
Proof. reflexivity. Qed.

Example max_pooling_2d_3x3_covers_all :
  F.max_pooling_2d (mk [1; 1; 3; 3] [1; 2; 3; 4; 5; 6; 7; 8; 9]%Z) 2 None 0 true
  = Ok (mk [1; 1; 2; 2] [5; 6; 8; 9]%Z).
Proof. reflexivity. Qed.

Example linear_flattens_its_input :
  F.linear (mk [1; 1; 3; 3] [1; 2; 3; 4; 5; 6; 7; 8; 9]%Z)
    (mk [2; 9] [1; 0; 0; 0; 0; 0; 0; 0; 0; 0; 0; 0; 0; 0; 0; 0; 0; 1]%Z)
    (mk [2] [10; 20]%Z)
  = Ok (mk [1; 2] [11; 29]%Z).
Proof. reflexivity. Qed.

Example test_iter_five_samples :
  iterators.drain (@rev nat) 3 (test_iter (@rev nat) [10; 11; 12; 13; 14])
  = Some (Ok [[10; 11; 12; 13; 14]]).
Proof. reflexivity. Qed.

Example shuffled_repeating_batches :
  option_map fst
    (match iterators.take (@rev nat) 3
             (iterators.SerialIterator_init (@rev nat) [10; 11; 12; 13; 14] 2 true true)
     with Ok r => Some r | Raise _ => None end)
  = Some [[14; 13]; [12; 11]; [10; 10]].
Proof. reflexivity. Qed.


Unset Implicit Arguments.

(** * The claims *)





(** C3.  Evaluated on the trainer the notebook builds (10 epochs of 60000
    samples in batches of 128): evaluation, the log, both plots and the
    printed report do their work at the end of each of the ten epochs,
    while the snapshot, registered with [trigger=(epoch, 'epoch')] where
    [epoch] is 10, is taken once, after the tenth. *)
Theorem snapshot_taken_only_after_last_epoch :
  exists tr log,
    trainer_run = Some (tr, log)
    /\ training.epoch (training.updater tr) = 10%N
    /\ training.epochs_of "validation" log = [1; 2; 3; 4; 5; 6; 7; 8; 9; 10]%N
    /\ training.epochs_of "LogReport" log = [1; 2; 3; 4; 5; 6; 7; 8; 9; 10]%N
    /\ training.epochs_of "loss.png" log = [1; 2; 3; 4; 5; 6; 7; 8; 9; 10]%N
    /\ training.epochs_of "accuracy.png" log = [1; 2; 3; 4; 5; 6; 7; 8; 9; 10]%N
    /\ training.epochs_of "PrintReport" log = [1; 2; 3; 4; 5; 6; 7; 8; 9; 10]%N
    /\ training.epochs_of "snapshot" log = [10]%N.
Proof.
  eexists. eexists. split; [vm_compute; reflexivity|].
  vm_compute. repeat split.
Qed.

(** Registered without a trigger of its own, the snapshot extension runs
    at the end of every epoch. *)
Lemma snapshot_default_trigger_each_epoch :
  exists tr log,
    training.run 5000 trainer_snapshot_each_epoch = Some (tr, log)
    /\ training.epochs_of "snapshot" log = [1; 2; 3; 4; 5; 6; 7; 8; 9; 10]%N.
Proof.
  eexists. eexists. split; [vm_compute; reflexivity|].
  vm_compute. reflexivity.
Qed.






(** C9.  The output of LeNet5.__call__ does not depend on the attribute
    [train]: the forward pass returns the same on every input whether the
    flag is True or False. *)
Theorem LeNet5_call_ignores_train {A : Type} {SA : Scalar A}
    (self : LeNet5 A) (x : ndarray A) (flag : bool) :
  forward (set_train flag self) x = forward self x
  /\ forward (set_train true self) x = forward (set_train false self) x.
Proof.
  unfold forward. rewrite !LeNet5_call_chain. split; reflexivity.
Qed.

(** C6.  The batch size is 128 and every batch the training iterator
    yields has exactly 128 samples; the evaluation iterator neither
    shuffles nor repeats, and the batches of its single pass, put end to
    end, are the test split in its original order. *)
Theorem iterators_batch_size_and_order {T : Type} (rng : list nat -> list nat)
    (train test : list T) :
  (forall l, Permutation (rng l) l) ->
  batchsize <= length train ->
  batchsize = 128
  /\ (forall k, exists batches it',
        iterators.take rng k (train_iter rng train) = Ok (batches, it')
        /\ length batches = k
        /\ Forall (fun batch => length batch = 128) batches)
  /\ iterators.order (test_iter rng test) = None
  /\ iterators.repeating (test_iter rng test) = false
  /\ (forall fuel, length test + 2 <= fuel ->
        exists batches,
          iterators.drain rng fuel (test_iter rng test) = Some (Ok batches)
          /\ concat batches = test
          /\ Forall (fun batch => length batch <= 128) batches).
Proof.
  intros Hrng Hn. split; [reflexivity|]. split; [|split; [|split]].
  - intros k.
    destruct (@take_training T rng Hrng train k (train_iter rng train) Hn
                (@train_iter_state T rng Hrng train Hn))
      as (bs & it' & Ht & Hl & Hall & _).
    exists bs, it'. auto.
  - reflexivity.
  - reflexivity.
  - intros fuel Hf.
    destruct (@drain_testing T rng test fuel (test_iter rng test) 0
                (@test_iter_state T rng test))
      as (bs & Hd & Hc & Hall); [lia|].
    exists bs. rewrite skipn_0 in Hc. auto.
Qed.

Lemma iterators_batch_size_and_order_witness :
  batchsize = 128
  /\ (forall k, exists batches it',
        iterators.take (@rev nat) k (train_iter (@rev nat) (seq 0 300))
          = Ok (batches, it')
        /\ length batches = k
        /\ Forall (fun batch => length batch = 128) batches)
  /\ iterators.order (test_iter (@rev nat) (seq 0 200)) = None
  /\ iterators.repeating (test_iter (@rev nat) (seq 0 200)) = false
  /\ (forall fuel, length (seq 0 200) + 2 <= fuel ->
        exists batches,
          iterators.drain (@rev nat) fuel (test_iter (@rev nat) (seq 0 200))
            = Some (Ok batches)
          /\ concat batches = seq 0 200
          /\ Forall (fun batch => length batch <= 128) batches).
Proof.
  apply (iterators_batch_size_and_order (@rev nat) (seq 0 300) (seq 0 200)).
  - intros l. apply Permutation_sym, Permutation_rev.
  - apply Nat.leb_le. reflexivity.
Defined.



(** * Further properties of the notebook's code *)

Example feature_side_of_28 : feature_side 28 = Some 5.
Proof. reflexivity. Qed.

Example feature_side_of_10_and_106 :
  feature_side 10 = Some 1 /\ feature_side 106 = Some 25.
Proof. split; reflexivity. Qed.

Example feature_side_of_6 : feature_side 6 = None.
Proof. reflexivity. Qed.

Example epochs_upto_3 : epochs_upto 3 = [1; 2; 3]%N.
Proof. reflexivity. Qed.

Example evaluation_of_300_samples :
  option_map (fun r => match r with Ok bs => map (@length nat) bs | Raise _ => [] end)
    (iterators.drain (@rev nat) 5 (test_iter (@rev nat) (seq 0 300)))
  = Some [128; 128; 44].
Proof. reflexivity. Qed.











(** X6.  The samples the training iterator hands out, batch after batch,
    are successive passes over the training set: put end to end, the
    first [k] batches are the beginning of a sequence of permutations of
    the whole set, whatever [k].  The epoch counter is the number of
    passes completed, and the samples handed out number the completed
    passes times the size of the set plus the position in the current
    pass. *)
Theorem training_stream_is_passes {T : Type} (rng : list nat -> list nat)
    (train : list T) (k : nat) :
  (forall l, Permutation (rng l) l) ->
  batchsize <= length train ->
  exists batches it' passes rest,
    iterators.take rng k (train_iter rng train) = Ok (batches, it')
    /\ concat batches ++ rest = concat passes
    /\ Forall (fun pass => Permutation pass train) passes
    /\ length passes = S (iterators.epoch it')
    /\ length (concat batches)
       = iterators.epoch it' * length train + iterators.current_position it'.
Proof.
  intros Hrng Hn.
  destruct (@train_iter_stream T rng Hrng train Hn) as (pass0 & Hs0).
  destruct (@take_stream T rng Hrng train k Hn _ _ _ _ Hs0)
    as (batches & it' & done & pass & Ht & Hs).
  destruct Hs as (_ & _ & _ & _ & Hpp & Hdone & Hlen & Hpos & Hc).
  cbn [app] in Hc.
  exists batches, it', (done ++ [pass]),
    (skipn (iterators.current_position it') pass).
  split; [exact Ht|]. split; [|split; [|split]].
  - rewrite Hc, concat_app. cbn [concat]. rewrite app_nil_r, <- app_assoc.
    now rewrite firstn_skipn.
  - apply Forall_app. split; [exact Hdone | now constructor].
  - rewrite length_app, Hlen. simpl. lia.
  - rewrite Hc, length_app, (length_concat_passes Hdone), Hlen.
    rewrite length_firstn, (Permutation_length Hpp). lia.
Qed.

Lemma training_stream_is_passes_witness :
  exists batches it' passes rest,
    iterators.take (@rev nat) 5 (train_iter (@rev nat) (seq 0 300))
      = Ok (batches, it')
    /\ concat batches ++ rest = concat passes
    /\ Forall (fun pass => Permutation pass (seq 0 300)) passes
    /\ length passes = S (iterators.epoch it')
    /\ length (concat batches)
       = iterators.epoch it' * length (seq 0 300)
         + iterators.current_position it'.
Proof.
  apply (training_stream_is_passes (@rev nat) (seq 0 300) 5).
  - intros l. apply Permutation_sym, Permutation_rev.
  - apply Nat.leb_le. reflexivity.
Defined.



(** X8.  Whatever the size of the training split, the batch size (at
    most that size) and the number of epochs, the trainer the notebook
    sets up stops at the end of the last epoch, after as many updates as
    it takes batches to cover that many passes; the single snapshot is
    taken on that last update, and evaluation, the log, both plots and
    the printed report do their work once at the end of every epoch. *)
Theorem trainer_run_any_sizes (n bs epochs : N) (fuel : nat) :
  (1 <= bs <= n)%N ->
  (1 <= epochs)%N ->
  (epochs * n <= N.of_nat fuel * bs)%N ->
  exists tr log,
    training.run fuel (trainer_for n bs epochs) = Some (tr, log)
    /\ training.epoch (training.updater tr) = epochs
    /\ (epochs * n <= training.iteration (training.updater tr) * bs
        < epochs * n + bs)%N
    /\ events_of "snapshot" log = [event_at (training.updater tr) "snapshot"]
    /\ training.epochs_of "validation" log = epochs_upto epochs
    /\ training.epochs_of "LogReport" log = epochs_upto epochs
    /\ training.epochs_of "loss.png" log = epochs_upto epochs
    /\ training.epochs_of "accuracy.png" log = epochs_upto epochs
    /\ training.epochs_of "PrintReport" log = epochs_upto epochs.
Proof.
  intros Hbs He Hfuel. unfold training.run.
  destruct (@run_loop_ends n bs epochs Hbs He fuel (trainer_for n bs epochs) [])
    as (tr & log & Hrun & Hc & Hep).
  - apply counting_init; assumption.
  - reflexivity.
  - cbn [trainer_for training.updater training.extend training.Trainer_init
         training.StandardUpdater training.iteration]. lia.
  - rewrite Hrun. exists tr, (rev log). split; [reflexivity|].
    split; [exact Hep|]. split.
    { destruct Hc as (_ & _ & Hp & Hacc & _ & Hnew & Hlast).
      destruct (Hnew (Hlast Hep)) as [_ Hpos]. rewrite Hep in Hacc. lia. }
    split.
    { rewrite events_of_rev.
      destruct (@run_loop_snapshot epochs fuel (trainer_for n bs epochs) tr [] log)
        as (_ & ->); try reflexivity; [|exact Hrun].
      left. split; reflexivity. }
    assert (Hper : forall who e,
      (forall u, training.fires (training.trigger e) (training.update u)
                 && training.fires (training.works_when (training.extension e))
                      (training.update u)
                 = training.is_new_epoch (training.update u)) ->
      training.name (training.extension e) = who ->
      filter (fun e' => String.eqb (training.name (training.extension e')) who)
        (training.extensions (trainer_for n bs epochs)) = [e] ->
      training.epochs_of who (rev log) = epochs_upto epochs).
    { intros who e Hcond Hname Hes.
      change (training.epochs_of who (rev log))
        with (map training.at_epoch (events_of who (rev log))).
      rewrite events_of_rev, map_rev.
      rewrite (@run_loop_once_per_epoch who e fuel Hcond Hname
                 (trainer_for n bs epochs) tr [] log Hes eq_refl Hrun).
      now rewrite rev_involutive, Hep. }
    repeat split.
    + apply (Hper "validation"%string
               {| training.extension := E.Evaluator;
                  training.trigger := training.Interval 1 training.Epoch |});
        [intros u; now apply once_per_epoch_trigger | reflexivity | reflexivity].
    + apply (Hper "LogReport"%string
               {| training.extension := E.LogReport;
                  training.trigger := training.Interval 1 training.Iteration |});
        [intros u; now apply once_per_epoch_report | reflexivity | reflexivity].
    + apply (Hper "loss.png"%string
               {| training.extension := E.PlotReport "loss.png";
                  training.trigger := training.Interval 1 training.Iteration |});
        [intros u; now apply once_per_epoch_report | reflexivity | reflexivity].
    + apply (Hper "accuracy.png"%string
               {| training.extension := E.PlotReport "accuracy.png";
                  training.trigger := training.Interval 1 training.Iteration |});
        [intros u; now apply once_per_epoch_report | reflexivity | reflexivity].
    + apply (Hper "PrintReport"%string
               {| training.extension := E.PrintReport;
                  training.trigger := training.Interval 1 training.Iteration |});
        [intros u; now apply once_per_epoch_report | reflexivity | reflexivity].
Qed.

Lemma trainer_run_any_sizes_witness :
  exists tr log,
    training.run 5000 (trainer_for 60000 128 10) = Some (tr, log)
    /\ training.epoch (training.updater tr) = 10%N
    /\ (10 * 60000 <= training.iteration (training.updater tr) * 128
        < 10 * 60000 + 128)%N
    /\ events_of "snapshot" log = [event_at (training.updater tr) "snapshot"]
    /\ training.epochs_of "validation" log = epochs_upto 10
    /\ training.epochs_of "LogReport" log = epochs_upto 10
    /\ training.epochs_of "loss.png" log = epochs_upto 10
    /\ training.epochs_of "accuracy.png" log = epochs_upto 10
    /\ training.epochs_of "PrintReport" log = epochs_upto 10.
Proof.
  apply (trainer_run_any_sizes 60000 128 10 5000); lia.
Defined.
